(** * rsa_archer.record_search: record lookup by field value

    A shallow embedding of [rsa_archer/record_search.py] (class
    [RecordSearcher] and exception [AmbiguousMatch]) and the properties of
    its dual-strategy lookup protocol.

    Layout:
    - [Py]       : the Python values the module handles (decoded JSON,
                   metadata dictionaries, exception payloads), the
                   builtins it calls on them ([int], truthiness, [str.lower],
                   [dict.get], ...) and exceptions;
    - [Host]     : the host client ([ArcherInstance]) and the HTTP
                   transport as an explicit world, and the
                   state-and-exception monad the methods run in;
    - [RecordSearcher] : the methods, one definition per method;
    - [Scenarios] : the fixtures of the repository's tests;
    - the properties.

    Not modelled: logging ([log.debug], [log.error]), which has no effect
    on results, and TLS settings ([verify=False]). *)

From Stdlib Require Import ZArith List String Ascii Bool Lia.
From Stdlib Require Import Numbers.DecimalString Floats.SpecFloat.
Import ListNotations.

Set Warnings "-register-all".

Local Open Scope string_scope.
Local Open Scope Z_scope.

(** ** Python values and builtins *)

Module Py.

(** Dictionary keys.  Decoded JSON objects only have string keys;
    [application_fields_json] stores name -> id entries under string keys
    and id -> descriptor entries under integer keys. *)
Inductive pykey :=
| KStr (s : string)
| KInt (z : Z).

(** Values: [None], [bool], [int], [float] (IEEE, as [spec_float]), [str],
    [list] and [dict] (insertion-ordered, as an association list). *)
Inductive pyval :=
| PNone
| PBool (b : bool)
| PInt (z : Z)
| PFloat (f : spec_float)
| PStr (s : string)
| PList (l : list pyval)
| PDict (d : list (pykey * pyval)).

Definition dict := list (pykey * pyval).

Definition pykey_eqb (a b : pykey) : bool :=
  match a, b with
  | KStr s, KStr t => String.eqb s t
  | KInt x, KInt y => Z.eqb x y
  | _, _ => false
  end.

(** *** Insertion-ordered dictionaries, generic in key and value.
    [adict_set] is [d[k] = v]: an existing key keeps its position, a new
    key goes last. *)
Section ADict.
Context {K V : Type} (eqb : K -> K -> bool).

Fixpoint adict_find (d : list (K * V)) (k : K) : option V :=
  match d with
  | [] => None
  | (k', v) :: rest => if eqb k' k then Some v else adict_find rest k
  end.

Fixpoint adict_set (d : list (K * V)) (k : K) (v : V) : list (K * V) :=
  match d with
  | [] => [(k, v)]
  | (k', v') :: rest =>
      if eqb k' k then (k', v) :: rest else (k', v') :: adict_set rest k v
  end.

Definition adict_mem (d : list (K * V)) (k : K) : bool :=
  match adict_find d k with Some _ => true | None => false end.
End ADict.

(** [d.get(k, default)] and [k in d] for a key that is already a [pykey]. *)
Definition dict_get (d : dict) (k : pykey) (default : pyval) : pyval :=
  match adict_find pykey_eqb d k with Some v => v | None => default end.

Definition dict_mem (d : dict) (k : pykey) : bool := adict_mem pykey_eqb d k.

Definition dict_set (d : dict) (k : pykey) (v : pyval) : dict :=
  adict_set pykey_eqb d k v.

(** *** Characters and strings.  A string is the UTF-8 encoding of the
    text, byte by byte. *)

Definition is_upper (c : ascii) : bool :=
  let n := nat_of_ascii c in (65 <=? n)%nat && (n <=? 90)%nat.

Definition lower_ascii (c : ascii) : ascii :=
  if is_upper c then ascii_of_nat (nat_of_ascii c + 32) else c.

(** The one-character string holding a double quote. *)
Definition dquote : string := String "034"%char EmptyString.

(** [s.lower()] on ASCII text: the letters A to Z are mapped, every
    other byte is kept. *)
Fixpoint lower (s : string) : string :=
  match s with
  | EmptyString => EmptyString
  | String c s' => String (lower_ascii c) (lower s')
  end.

(** A string of ASCII characters only. *)
Fixpoint is_ascii (s : string) : bool :=
  match s with
  | EmptyString => true
  | String c s' => (nat_of_ascii c <? 128)%nat && is_ascii s'
  end.

(** [s.lower()] on any text.  On ASCII text it is [lower]; the case
    mapping of text with other characters is left to [lower_other], a
    parameter. *)
Definition str_lower (lower_other : string -> string) (s : string) : string :=
  if is_ascii s then lower s else lower_other s.

(** [needle in s] for two strings *)
Fixpoint contains (needle s : string) : bool :=
  String.prefix needle s ||
  match s with
  | EmptyString => false
  | String _ s' => contains needle s'
  end.

(** [s.endswith(suffix)] *)
Definition endswith (s suffix : string) : bool :=
  let n := String.length s in
  let m := String.length suffix in
  (m <=? n)%nat && String.eqb (String.substring (n - m) m s) suffix.

(** *** Floats *)

(** The integer part of a float, truncated toward zero; [None] for
    infinities and NaN. *)
Definition float_trunc (f : spec_float) : option Z :=
  match f with
  | S754_zero _ => Some 0
  | S754_finite s m e =>
      let mag := if 0 <=? e then Z.pos m * 2 ^ e else Z.pos m / 2 ^ (- e) in
      Some (if s then - mag else mag)
  | S754_infinity _ => None
  | S754_nan => None
  end.

(** The float is an integer (so it hashes and compares like that [int]). *)
Definition float_integral (f : spec_float) : option Z :=
  match f with
  | S754_zero _ => Some 0
  | S754_finite s m e =>
      if 0 <=? e then float_trunc f
      else if Z.pos m mod 2 ^ (- e) =? 0 then float_trunc f else None
  | _ => None
  end.

(** *** Truthiness: [bool(v)], as in [if v:] and [not v]. *)
Definition truthy (v : pyval) : bool :=
  match v with
  | PNone => false
  | PBool b => b
  | PInt z => negb (z =? 0)
  | PFloat (S754_zero _) => false
  | PFloat _ => true
  | PStr s => negb (String.eqb s EmptyString)
  | PList l => match l with [] => false | _ => true end
  | PDict d => match d with [] => false | _ => true end
  end.

(** *** Exceptions.
    All are subclasses of [Exception].  [ValueError] and [RuntimeError]
    carry the message the module formats; [AmbiguousMatch] carries its
    message and its [details] attribute.  Messages generated by the
    interpreter itself are left empty. *)
Inductive exn :=
| ValueError (msg : string)
| RuntimeError (msg : string)
| TypeError
| AttributeError
| OverflowError
| RequestException (what : string)
| AmbiguousMatch (msg : string) (details : pyval).

Inductive result (A : Type) :=
| Ok (a : A)
| Raise (e : exn).
Arguments Ok {A} a.
Arguments Raise {A} e.

Definition rbind {A B} (r : result A) (k : A -> result B) : result B :=
  match r with
  | Ok a => k a
  | Raise e => Raise e
  end.

(** [try: r  except Exception: handler] for a pure computation *)
Definition rcatch {A} (r : result A) (handler : exn -> result A) : result A :=
  match r with
  | Ok a => Ok a
  | Raise e => handler e
  end.

Declare Scope result_scope.
Delimit Scope result_scope with result.
Notation "'let*' x ':=' r 'in' k" := (rbind r (fun x => k))
  (at level 10, x name, r at level 100, k at level 200) : result_scope.

(** *** [int(v)] *)

Definition is_space (c : ascii) : bool :=
  let n := nat_of_ascii c in
  ((9 <=? n) && (n <=? 13) || (n =? 32))%nat.

Definition digit_of (c : ascii) : option Z :=
  let n := nat_of_ascii c in
  if ((48 <=? n) && (n <=? 57))%nat then Some (Z.of_nat (n - 48)) else None.

Fixpoint lstrip (cs : list ascii) : list ascii :=
  match cs with
  | c :: rest => if is_space c then lstrip rest else cs
  | [] => []
  end.

Definition strip (cs : list ascii) : list ascii :=
  rev (lstrip (rev (lstrip cs))).

(** Decimal digits, single underscores allowed between digits.
    [acc] is the value so far, [prev_digit] tells whether the previous
    character was a digit. *)
Fixpoint parse_digits (cs : list ascii) (acc : Z) (prev_digit : bool) : option Z :=
  match cs with
  | [] => if prev_digit then Some acc else None
  | c :: rest =>
      match digit_of c with
      | Some d => parse_digits rest (10 * acc + d) true
      | None =>
          if (Ascii.eqb c "_" && prev_digit)%bool
          then parse_digits rest acc false
          else None
      end
  end.

(** [int(s)] for a string: surrounding whitespace (tab, line feed,
    vertical tab, form feed, carriage return, space), an optional sign,
    decimal digits.  Digits and whitespace outside ASCII, which [int]
    also accepts, are not recognised. *)
Definition parse_int (s : string) : option Z :=
  match strip (list_ascii_of_string s) with
  | "-"%char :: ds => option_map Z.opp (parse_digits ds 0 false)
  | "+"%char :: ds => parse_digits ds 0 false
  | ds => parse_digits ds 0 false
  end.

Definition py_int (v : pyval) : result Z :=
  match v with
  | PInt z => Ok z
  | PBool b => Ok (if b then 1 else 0)
  | PFloat f =>
      match float_trunc f with
      | Some z => Ok z
      | None => match f with S754_nan => Raise (ValueError EmptyString) | _ => Raise OverflowError end
      end
  | PStr s =>
      match parse_int s with
      | Some z => Ok z
      | None => Raise (ValueError EmptyString)
      end
  | PNone | PList _ | PDict _ => Raise TypeError
  end.

(** *** Attribute and container protocol on values *)

(** [v.get(k, default)]: only dictionaries have [get]. *)
Definition py_get (v : pyval) (k : string) (default : pyval) : result pyval :=
  match v with
  | PDict d => Ok (dict_get d (KStr k) default)
  | _ => Raise AttributeError
  end.

Definition pyval_of_key (k : pykey) : pyval :=
  match k with
  | KStr s => PStr s
  | KInt z => PInt z
  end.

Fixpoint chars_of (s : string) : list pyval :=
  match s with
  | EmptyString => []
  | String c s' => PStr (String c EmptyString) :: chars_of s'
  end.

(** [for x in v]: the items iterated over. *)
Definition py_iter (v : pyval) : result (list pyval) :=
  match v with
  | PList l => Ok l
  | PStr s => Ok (chars_of s)
  | PDict d => Ok (map (fun kv => pyval_of_key (fst kv)) d)
  | PNone | PBool _ | PInt _ | PFloat _ => Raise TypeError
  end.

(** [v == s] for a string [s] *)
Definition eq_str (v : pyval) (s : string) : bool :=
  match v with
  | PStr t => String.eqb t s
  | _ => false
  end.

(** [s in v] for a string [s] *)
Definition py_contains (v : pyval) (s : string) : result bool :=
  match v with
  | PStr t => Ok (contains s t)
  | PList l => Ok (existsb (fun x => eq_str x s) l)
  | PDict d => Ok (dict_mem d (KStr s))
  | PNone | PBool _ | PInt _ | PFloat _ => Raise TypeError
  end.

(** The key a value denotes when used to index a dictionary: [True == 1]
    and [1.0 == 1] hash alike; [None] and non-integral floats are hashable
    but never equal a [pykey]; lists and dictionaries are unhashable. *)
Definition key_of (v : pyval) : result (option pykey) :=
  match v with
  | PStr s => Ok (Some (KStr s))
  | PInt z => Ok (Some (KInt z))
  | PBool b => Ok (Some (KInt (if b then 1 else 0)))
  | PFloat f => Ok (option_map KInt (float_integral f))
  | PNone => Ok None
  | PList _ | PDict _ => Raise TypeError
  end.

(** [d.get(v)] for an arbitrary value [v] *)
Definition dict_get_val (d : dict) (v : pyval) : result pyval :=
  (let* k := key_of v in
   Ok match k with
      | Some k => dict_get d k PNone
      | None => PNone
      end)%result.

(** *** [str(v)] as used by f-strings.
    Exact on [None], [bool], [int] and [str]; the rendering of floats,
    lists and dictionaries is left to [render], a parameter. *)
Definition py_str (render : pyval -> string) (v : pyval) : string :=
  match v with
  | PStr s => s
  | PNone => "None"
  | PBool true => "True"
  | PBool false => "False"
  | PInt z => NilZero.string_of_int (Z.to_int z)
  | PFloat _ | PList _ | PDict _ => render v
  end.

(** *** [urllib.parse.quote_plus] *)

Definition is_unreserved (c : ascii) : bool :=
  let n := nat_of_ascii c in
  ((48 <=? n) && (n <=? 57) || (65 <=? n) && (n <=? 90) || (97 <=? n) && (n <=? 122)
   || (n =? 95) || (n =? 46) || (n =? 45) || (n =? 126))%nat.

Definition hex_digit (n : nat) : ascii :=
  ascii_of_nat (if (n <? 10)%nat then 48 + n else 55 + n).

Fixpoint quote_plus (s : string) : string :=
  match s with
  | EmptyString => EmptyString
  | String c s' =>
      if is_unreserved c then String c (quote_plus s')
      else if Ascii.eqb c " " then String "+" (quote_plus s')
      else
        let n := nat_of_ascii c in
        String "%" (String (hex_digit (n / 16)) (String (hex_digit (n mod 16)) (quote_plus s')))
  end.

End Py.

Import Py.

(** ** The host client, the transport and the monad of the methods *)

Module Host.

(** A [requests] response: [json] is [None] when [resp.json()] raises. *)
Record response := {
  status_code : Z;
  json : option pyval;
  text : string
}.

Inductive http_result :=
| Responded (r : response)
| Failed (e : exn).

(** [requests.post(url, headers=, json=, verify=False, timeout=)] and
    [requests.get(url, headers=, verify=False, timeout=)]. *)
Inductive request :=
| POST (url : string) (headers : dict) (json_body : pyval) (timeout : Z)
| GET (url : string) (headers : dict) (timeout : Z).

(** What the module does to the outside, in order. *)
Inductive event :=
| FromApplication (app_name : string)
| GetValueId (field_name value : string)
| Http (r : request).

(** The attributes of [ArcherInstance] that [from_application] reloads. *)
Record archer_state := {
  application_fields_json : dict;
  application_level_id : pyval
}.

Record state := {
  archer : archer_state;
  log : list event
}.

(** Everything outside the module: the host client's constants and
    collaborator methods, the servers behind [requests] (answering a
    request in view of all that happened before), and the interpreter's
    rendering of composite values in f-strings and its case mapping of
    text that is not ASCII. *)
Record world := {
  header : dict;
  api_url_base : string;
  content_api_url_base : string;
  from_application : string -> archer_state -> option exn * archer_state;
  get_value_id_by_field_name_and_value :
    string -> string -> archer_state -> result (list pyval);
  requests : list event -> request -> http_result;
  render : pyval -> string;
  lower_non_ascii : string -> string
}.

Definition M (A : Type) : Type := state -> result A * state.

Definition ret {A} (a : A) : M A := fun st => (Ok a, st).

Definition raise {A} (e : exn) : M A := fun st => (Raise e, st).

Definition bind {A B} (m : M A) (k : A -> M B) : M B :=
  fun st =>
    match m st with
    | (Ok a, st') => k a st'
    | (Raise e, st') => (Raise e, st')
    end.

(** [try: m  except Exception as e: handler e] *)
Definition try_except {A} (m : M A) (handler : exn -> M A) : M A :=
  fun st =>
    match m st with
    | (Ok a, st') => (Ok a, st')
    | (Raise e, st') => handler e st'
    end.

Definition lift {A} (r : result A) : M A := fun st => (r, st).

Definition record (ev : event) (st : state) : state :=
  {| archer := archer st; log := log st ++ [ev] |}.

Definition call_from_application (w : world) (app_name : string) : M unit :=
  fun st =>
    let (failure, a') := from_application w app_name (archer st) in
    let st' := {| archer := a'; log := log st ++ [FromApplication app_name] |} in
    match failure with
    | None => (Ok tt, st')
    | Some e => (Raise e, st')
    end.

Definition call_get_value_id (w : world) (field_name value : string) : M (list pyval) :=
  fun st =>
    (get_value_id_by_field_name_and_value w field_name value (archer st),
     record (GetValueId field_name value) st).

Definition http (w : world) (req : request) : M response :=
  fun st =>
    match requests w (log st) req with
    | Responded r => (Ok r, record (Http req) st)
    | Failed e => (Raise e, record (Http req) st)
    end.

(** [resp.json()] *)
Definition resp_json (r : response) : result pyval :=
  match json r with
  | Some data => Ok data
  | None => Raise (ValueError EmptyString)
  end.

Definition get_archer : M archer_state := fun st => (Ok (archer st), st).

Declare Scope monad_scope.
Delimit Scope monad_scope with monad.
Notation "x <- m ;; k" := (bind m (fun x => k))
  (at level 61, m at next level, right associativity) : monad_scope.
Notation "m ;; k" := (bind m (fun _ => k))
  (at level 61, right associativity) : monad_scope.

End Host.

Import Host.

(** ** The methods of [RecordSearcher] *)

Module RecordSearcher.

Local Open Scope monad_scope.

Section Methods.
Variable w : world.

(** *** [_resolve_field_id_by_display_name] *)

(** [key.lower()] and [field_display_name.lower()] *)
Definition display_name_lower (name : string) : string :=
  str_lower (lower_non_ascii w) name.

(** The loop [for key, val in af.items()]: the value of the first string
    key equal to the target once lower-cased. *)
Fixpoint first_display_name_match (target_lower : string) (items : dict) : option pyval :=
  match items with
  | [] => None
  | (KStr key, val) :: rest =>
      if String.eqb (display_name_lower key) target_lower then Some val
      else first_display_name_match target_lower rest
  | (KInt _, _) :: rest => first_display_name_match target_lower rest
  end.

Definition field_not_found (app_name field_display_name : string) : exn :=
  ValueError ("Field with DisplayName " ++ dquote ++ field_display_name
              ++ dquote ++ " not found in application " ++ dquote ++ app_name ++ dquote).

Definition _resolve_field_id_by_display_name (app_name field_display_name : string) : M pyval :=
  call_from_application w app_name ;;
  a <- get_archer ;;
  let af := application_fields_json a in
  let target_lower := display_name_lower field_display_name in
  match first_display_name_match target_lower af with
  | Some val => ret val
  | None => raise (field_not_found app_name field_display_name)
  end.

(** *** [_is_values_list] *)

Definition _is_values_list (field_id : pyval) : M bool :=
  a <- get_archer ;;
  info <- lift (dict_get_val (application_fields_json a) field_id) ;;
  match info with
  | PDict d =>
      lift (rcatch (let* t := py_int (dict_get d (KStr "Type") (PInt (-1))) in
                    Ok (t =? 4))%result
                   (fun _ => Ok false))
  | _ => ret false
  end.

(** *** [_get_value_or_value_id] *)

Definition no_match_token : string := "__CLINE_VALUES_LIST_NO_MATCH__".

Definition _get_value_or_value_id
    (field_display_name : string) (field_id : pyval) (field_value : string) : M pyval :=
  is_vl <- _is_values_list field_id ;;
  if is_vl : bool then
    ids <- call_get_value_id w field_display_name field_value ;;
    match ids with
    | [] => ret (PStr no_match_token)
    | id0 :: _ => ret id0
    end
  else ret (PStr field_value).

(** *** [_supports_rest_search] *)

Definition search_url : string := api_url_base w ++ "core/content/record/search".

Definition json_headers : dict :=
  dict_set (header w) (KStr "Content-type") (PStr "application/json").

Definition probe_body (module_id : Z) : pyval :=
  PDict [ (KStr "ModuleId", PInt module_id);
          (KStr "Page", PDict [(KStr "Start", PInt 0); (KStr "Size", PInt 1)]);
          (KStr "Filters",
           PList [PDict [ (KStr "FieldId", PInt 0);
                          (KStr "Operator", PStr "Equals");
                          (KStr "Value", PStr "__CLINE_PROBE__") ]]) ].

Definition probe_request (module_id : Z) : request :=
  POST search_url json_headers (probe_body module_id) 10.

Definition _supports_rest_search (module_id : Z) : M bool :=
  try_except
    (resp <- http w (probe_request module_id) ;;
     if (status_code resp =? 404) || (status_code resp =? 405)
     then ret false
     else ret true)
    (fun _ => ret false).

(** *** [_rest_search_record_ids] *)

Definition search_body (module_id : Z) (field_id value : pyval) (limit : Z) : pyval :=
  PDict [ (KStr "ModuleId", PInt module_id);
          (KStr "Page", PDict [(KStr "Start", PInt 0); (KStr "Size", PInt limit)]);
          (KStr "Filters",
           PList [PDict [ (KStr "FieldId", field_id);
                          (KStr "Operator", PStr "Equals");
                          (KStr "Value", value) ]]);
          (KStr "ReturnFields", PList [PStr "Id"]) ].

Definition search_request (module_id : Z) (field_id value : pyval) (limit : Z) : request :=
  POST search_url json_headers (search_body module_id field_id value limit) 15.

(** [if rid: ids.append(int(rid))] *)
Definition append_if_truthy (rid : pyval) (ids : list Z) : result (list Z) :=
  if truthy rid then (let* n := py_int rid in Ok (ids ++ [n])%list)%result
  else Ok ids.

(** [item.get("RequestedObject", {}).get("Id")] *)
Definition requested_object_id (item : pyval) : result pyval :=
  (let* ro := py_get item "RequestedObject" (PDict []) in
   py_get ro "Id" PNone)%result.

(** [for item in data:] over a top-level list *)
Fixpoint rest_list_loop (items : list pyval) (ids : list Z) : result (list Z) :=
  match items with
  | [] => Ok ids
  | item :: rest =>
      (let* rid := requested_object_id item in
       let* ids' := append_if_truthy rid ids in
       rest_list_loop rest ids')%result
  end.

(** [for k, v in item.items(): if k.lower().endswith("_id") or
    k.lower() == "id": rid = v; break], starting from [rid = None].
    No character outside ASCII lower-cases to [_], to [i] alone or to [d],
    so for these two tests the ASCII [lower] decides as [str.lower()]. *)
Fixpoint first_id_key (items : dict) : result pyval :=
  match items with
  | [] => Ok PNone
  | (KStr k, v) :: rest =>
      if endswith (lower k) "_id" || String.eqb (lower k) "id" then Ok v
      else first_id_key rest
  | (KInt _, _) :: _ => Raise AttributeError
  end.

(** [for item in data["value"]:] *)
Fixpoint rest_value_loop (items : list pyval) (ids : list Z) : result (list Z) :=
  match items with
  | [] => Ok ids
  | item :: rest =>
      (let* rid :=
         match item with
         | PDict d =>
             if dict_mem d (KStr "RequestedObject")
             then py_get (dict_get d (KStr "RequestedObject") PNone) "Id" PNone
             else first_id_key d
         | _ => Ok PNone
         end in
       let* ids' := append_if_truthy rid ids in
       rest_value_loop rest ids')%result
  end.

(** The response normalisation of the primary strategy, from the decoded
    body to the ids. *)
Definition rest_ids_of (data : pyval) : result (list Z) :=
  match data with
  | PList items => rest_list_loop items []
  | PDict d =>
      match adict_find pykey_eqb d (KStr "value") with
      | Some (PList items) => rest_value_loop items []
      | _ =>
          (let* rid := requested_object_id data in
           append_if_truthy rid [])%result
      end
  | _ => Ok []
  end.

Definition _rest_search_record_ids
    (module_id : Z) (field_id value : pyval) (limit : Z) : M (list Z) :=
  try_except
    (resp <- http w (search_request module_id field_id value limit) ;;
     if 400 <=? status_code resp then ret []
     else
       data <- lift (resp_json resp) ;;
       lift (rest_ids_of data))
    (fun _ => ret []).

(** *** [_get_grc_endpoint_url] *)

Definition directory_request : request :=
  GET (content_api_url_base w) (header w) 15.

(** [for ep in data.get("value", []):] with the list [candidates];
    ends with [candidates[0]] if there is one.  [None] is the fall
    through to the final [return None]. *)
Fixpoint endpoint_loop (app_name : string) (eps candidates : list pyval)
  : result (option pyval) :=
  match eps with
  | [] =>
      match candidates with
      | c :: _ => Ok (Some c)
      | [] => Ok None
      end
  | ep :: rest =>
      (let* name0 := py_get ep "name" (PStr EmptyString) in
       let name := if truthy name0 then name0 else PStr EmptyString in
       let* url := py_get ep "url" PNone in
       if eq_str name app_name then Ok (Some url)
       else
         let* inside := py_contains name app_name in
         if inside : bool
         then endpoint_loop app_name rest (candidates ++ [url])%list
         else endpoint_loop app_name rest candidates)%result
  end.

Definition endpoint_of_directory (app_name : string) (data : pyval) : result (option pyval) :=
  (let* listing := py_get data "value" (PList []) in
   let* eps := py_iter listing in
   endpoint_loop app_name eps [])%result.

Definition _get_grc_endpoint_url (app_name : string) : M pyval :=
  found <- try_except
             (resp <- http w directory_request ;;
              data <- lift (resp_json resp) ;;
              lift (endpoint_of_directory app_name data))
             (fun _ => ret None) ;;
  match found with
  | Some url => ret url
  | None => ret PNone
  end.

(** *** [_contentapi_search_record_ids] *)

Definition select_field_of (endpoint_url : pyval) : string :=
  py_str (render w) endpoint_url ++ "_Id".

Definition filter_expr (field_display_name field_value : string) : string :=
  field_display_name ++ " eq '" ++ field_value ++ "'".

Definition contentapi_request
    (endpoint_url : pyval) (field_display_name field_value : string) : request :=
  GET (content_api_url_base w ++ py_str (render w) endpoint_url
       ++ "?$filter=" ++ quote_plus (filter_expr field_display_name field_value)
       ++ "&$select=" ++ select_field_of endpoint_url)
      (header w) 15.

(** [for item in data.get("value", []):] of the fallback strategy *)
Fixpoint contentapi_loop (select_field : string) (items : list pyval) (ids : list Z)
  : result (list Z) :=
  match items with
  | [] => Ok ids
  | item :: rest =>
      (let* rid :=
         match item with
         | PDict d =>
             match dict_get d (KStr select_field) PNone with
             | PNone => first_id_key d
             | rid => Ok rid
             end
         | _ => Ok PNone
         end in
       let* ids' :=
         match rid with
         | PNone => Ok ids
         | _ => let* n := py_int rid in Ok (ids ++ [n])%list
         end in
       contentapi_loop select_field rest ids')%result
  end.

Definition contentapi_ids_of (select_field : string) (data : pyval) : result (list Z) :=
  (let* listing := py_get data "value" (PList []) in
   let* items := py_iter listing in
   contentapi_loop select_field items [])%result.

Definition _contentapi_search_record_ids
    (endpoint_url : pyval) (field_display_name field_value : string) : M (list Z) :=
  let select_field := select_field_of endpoint_url in
  try_except
    (resp <- http w (contentapi_request endpoint_url field_display_name field_value) ;;
     if 400 <=? status_code resp then ret []
     else
       data <- lift (resp_json resp) ;;
       lift (contentapi_ids_of select_field data))
    (fun _ => ret []).

(** *** [get_record_id_by_field] *)

(** [int(module_id_raw)], else [int(str(module_id_raw))], else
    [RuntimeError]. *)
Definition module_id_of (module_id_raw : pyval) : result Z :=
  rcatch (py_int module_id_raw)
    (fun _ =>
       rcatch (py_int (PStr (py_str (render w) module_id_raw)))
         (fun _ =>
            Raise (RuntimeError ("Invalid application level id: "
                                 ++ py_str (render w) module_id_raw)))).

Definition multiple_records (field_display_name field_value : string) (ids : list Z) : exn :=
  AmbiguousMatch
    ("Multiple records found for value '" ++ field_value
     ++ "' in field '" ++ field_display_name ++ "'")
    (PList (map PInt ids)).

(** The last three statements: [if not ids], [if len(ids) == 1], [raise]. *)
Definition classify (field_display_name field_value : string) (ids : list Z)
  : result (option Z) :=
  match ids with
  | [] => Ok None
  | [id] => Ok (Some id)
  | _ => Raise (multiple_records field_display_name field_value ids)
  end.

Definition get_record_id_by_field
    (app_name field_display_name field_value : string) : M (option Z) :=
  field_id <- _resolve_field_id_by_display_name app_name field_display_name ;;
  a <- get_archer ;;
  module_id <- lift (module_id_of (application_level_id a)) ;;
  search_token <- _get_value_or_value_id field_display_name field_id field_value ;;
  supported <- _supports_rest_search module_id ;;
  if supported : bool then
    ids <- _rest_search_record_ids module_id field_id search_token 2 ;;
    lift (classify field_display_name field_value ids)
  else
    endpoint <- _get_grc_endpoint_url app_name ;;
    if negb (truthy endpoint) then ret None
    else
      ids <- _contentapi_search_record_ids endpoint field_display_name field_value ;;
      lift (classify field_display_name field_value ids).

(** *** [get_record_ids_by_field_bulk] *)

(** [for x in l: try: acc.append(int(x))  except Exception: continue] *)
Fixpoint coerce_ints (l : list pyval) (acc : list Z) : list Z :=
  match l with
  | [] => acc
  | x :: rest =>
      match py_int x with
      | Ok n => coerce_ints rest (acc ++ [n])%list
      | Raise _ => coerce_ints rest acc
      end
  end.

(** [for val in details.values():] flattening lists, coercing the rest *)
Fixpoint flatten_details (entries : dict) (flat : list Z) : list Z :=
  match entries with
  | [] => flat
  | (_, PList l) :: rest => flatten_details rest (coerce_ints l flat)
  | (_, val) :: rest => flatten_details rest (coerce_ints [val] flat)
  end.

(** The body of [except AmbiguousMatch as a:], up to the list stored in
    [ambiguities[v]]. *)
Definition normalize_details (a_details : pyval) : list Z :=
  let details := if truthy a_details then a_details else PList [] in
  match details with
  | PList l => coerce_ints l []
  | PDict d => flatten_details d []
  | other => coerce_ints [other] []
  end.

Definition results_dict := list (string * option Z).
Definition ambiguities_dict := list (string * list Z).

(** [for v in values:] with the two dictionaries threaded through. *)
Fixpoint bulk_loop (app_name field_display_name : string) (values : list string)
    (results : results_dict) (ambiguities : ambiguities_dict)
  : M (results_dict * ambiguities_dict) :=
  match values with
  | [] => ret (results, ambiguities)
  | v :: rest =>
      next <- try_except
                (rid <- get_record_id_by_field app_name field_display_name v ;;
                 ret (adict_set String.eqb results v rid, ambiguities))
                (fun e =>
                   match e with
                   | AmbiguousMatch _ a_details =>
                       ret (adict_set String.eqb results v None,
                            adict_set String.eqb ambiguities v (normalize_details a_details))
                   | _ => ret (adict_set String.eqb results v None, ambiguities)
                   end) ;;
      bulk_loop app_name field_display_name rest (fst next) (snd next)
  end.

Definition details_of_ambiguities (ambiguities : ambiguities_dict) : pyval :=
  PDict (map (fun kv => (KStr (fst kv), PList (map PInt (snd kv)))) ambiguities).

Definition ambiguous_bulk (ambiguities : ambiguities_dict) : exn :=
  AmbiguousMatch "Ambiguous matches found for one or more input values"
                 (details_of_ambiguities ambiguities).

Definition get_record_ids_by_field_bulk
    (app_name field_display_name : string) (values : list string) : M results_dict :=
  final <- bulk_loop app_name field_display_name values [] [] ;;
  match snd final with
  | _ :: _ => raise (ambiguous_bulk (snd final))
  | [] => ret (fst final)
  end.
End Methods.

End RecordSearcher.

Import RecordSearcher.

(** ** Response bodies

    The shapes the two servers answer with: a record as the primary search
    returns it, [{"RequestedObject": {"Id": n}}], and a record as the
    Content API returns it, [{"<endpoint>_Id": n}]. *)
Definition nested_id (n : Z) : pyval :=
  PDict [(KStr "RequestedObject", PDict [(KStr "Id", PInt n)])].

Definition keyed_id (select_field : string) (n : Z) : pyval :=
  PDict [(KStr select_field, PInt n)].

Definition value_listing (items : list pyval) : pyval :=
  PDict [(KStr "value", PList items)].

(** ** Scenarios: the repository's tests, replayed on the embedding *)

Module Scenarios.

Fixpoint count_posts (l : list event) : nat :=
  match l with
  | Http (POST _ _ _ _) :: rest => S (count_posts rest)
  | _ :: rest => count_posts rest
  | [] => O
  end.

Fixpoint count_gets (l : list event) : nat :=
  match l with
  | Http (GET _ _ _) :: rest => S (count_gets rest)
  | _ :: rest => count_gets rest
  | [] => O
  end.

Definition mock_response (status : Z) (data : pyval) : http_result :=
  Responded {| status_code := status; json := Some data; text := EmptyString |}.

Definition exhausted : http_result := Failed (RequestException "StopIteration").

(** [FakeArcher] with [requests.post] and [requests.get] patched by two
    queues of responses ([side_effect]). *)
Definition fake_world
    (value_ids : string -> string -> list pyval)
    (posts gets : list http_result) : world :=
  {| header := [(KStr "Authorization", PStr "Archer session-id=FAKE")];
     api_url_base := "https://fake/rsaarcher/api/";
     content_api_url_base := "https://fake/rsaarcher/contentapi/";
     from_application := fun _ a => (None, a);
     get_value_id_by_field_name_and_value := fun name value _ => Ok (value_ids name value);
     requests := fun history req =>
       match req with
       | POST _ _ _ _ => nth (count_posts history) posts exhausted
       | GET _ _ _ => nth (count_gets history) gets exhausted
       end;
     render := fun _ => "<object>";
     lower_non_ascii := fun s => s |}.

Definition fake_state (fields : dict) : state :=
  {| archer := {| application_fields_json := fields;
                  application_level_id := PStr "100" |};
     log := [] |}.

Definition ticket_fields : dict :=
  [ (KStr "Ticket Number", PInt 10);
    (KInt 10, PDict [(KStr "Type", PInt 1); (KStr "FieldId", PInt 10)]) ].

Definition status_fields : dict :=
  [ (KStr "Status", PInt 20);
    (KInt 20, PDict [(KStr "Type", PInt 4); (KStr "FieldId", PInt 20)]) ].

Definition no_value_ids : string -> string -> list pyval := fun _ _ => [].

Definition probe_ok : http_result := mock_response 200 (PDict []).

Definition open_is_999 (name value : string) : list pyval :=
  if String.eqb name "Status" && String.eqb value "Open" then [PInt 999] else [].

Definition directory_of (name url : string) : pyval :=
  PDict [(KStr "value", PList [PDict [(KStr "name", PStr name); (KStr "url", PStr url)]])].

(** Two values looked up in turn through the primary search: the first
    resolves to the record [n], the second matches the records 1 and 2. *)
Definition one_then_two (n : Z) : world :=
  fake_world no_value_ids
    [ probe_ok; mock_response 200 (PList [nested_id n]);
      probe_ok; mock_response 200 (PList [nested_id 1; nested_id 2]) ]
    [].

(** The primary endpoint is unsupported; the directory lists the
    application under the path [Endpoint], and the Content API answers the
    filtered query with the record 222. *)
Definition fallback_world (value_ids : string -> string -> list pyval) : world :=
  fake_world value_ids
    [ mock_response 404 (PDict []) ]
    [ mock_response 200 (directory_of "App" "Endpoint");
      mock_response 200 (value_listing [keyed_id "Endpoint_Id" 222]) ].

(** A host whose module id is not a number. *)
Definition bad_module_state : state :=
  {| archer := {| application_fields_json := ticket_fields;
                  application_level_id := PStr "abc" |};
     log := [] |}.

(** The primary search answers with the single record of id 0. *)
Definition record_zero_world : world :=
  fake_world no_value_ids [probe_ok; mock_response 200 (PList [nested_id 0])] [].

(** The primary search is rejected by the server. *)
Definition rejected_world : world :=
  fake_world no_value_ids [mock_response 500 (PDict [])] [].

End Scenarios.

(** ** Auxiliary definitions used in the statements *)

(** What [try: ... return ids  except Exception: return []] returns. *)
Definition ids_or_empty (r : result (list Z)) : list Z :=
  match r with
  | Ok ids => ids
  | Raise _ => []
  end.

(** What [_get_grc_endpoint_url] returns given the outcome of its [try]
    body. *)
Definition endpoint_or_none (r : result (option pyval)) : pyval :=
  match r with
  | Ok (Some url) => url
  | _ => PNone
  end.

(** Case-insensitive equality of two strings, stated directly: the same
    length, and at each position either the same character or the upper
    and lower case of one letter. *)
Definition same_letter (c d : ascii) : bool :=
  Ascii.eqb c d
  || (is_upper c && (nat_of_ascii d =? nat_of_ascii c + 32)%nat)
  || (is_upper d && (nat_of_ascii c =? nat_of_ascii d + 32)%nat).

Fixpoint eq_ignore_case (s t : string) : bool :=
  match s, t with
  | EmptyString, EmptyString => true
  | String c s', String d t' => same_letter c d && eq_ignore_case s' t'
  | _, _ => false
  end.

(** A metadata key matches a display name ignoring case when the two are
    equal once lower-cased by [str.lower()]. *)
Definition name_matches (w : world) (key name : string) : bool :=
  String.eqb (display_name_lower w key) (display_name_lower w name).

(** *** Endpoint discovery as the specification words it

    A directory listing is a sequence of [{name, url}] entries.  An entry
    is well formed when it is an object whose [name], if present and not
    empty, is a string. *)
Definition entry_ok (ep : pyval) : bool :=
  match ep with
  | PDict d =>
      match dict_get d (KStr "name") (PStr EmptyString) with
      | PStr _ => true
      | other => negb (truthy other)
      end
  | _ => false
  end.

Definition name_of (ep : pyval) : string :=
  match ep with
  | PDict d =>
      match dict_get d (KStr "name") (PStr EmptyString) with
      | PStr s => s
      | _ => EmptyString
      end
  | _ => EmptyString
  end.

Definition url_of (ep : pyval) : pyval :=
  match ep with
  | PDict d => dict_get d (KStr "url") PNone
  | _ => PNone
  end.

(** The entry whose name equals the application name, else the first
    entry whose name contains it. *)
Definition select_entry (app_name : string) (eps : list pyval) : option pyval :=
  match find (fun ep => String.eqb (name_of ep) app_name) eps with
  | Some ep => Some ep
  | None => find (fun ep => contains app_name (name_of ep)) eps
  end.

(** The matched path, or absent. *)
Definition discovered_path (app_name : string) (eps : list pyval) : pyval :=
  match select_entry app_name eps with
  | Some ep => url_of ep
  | None => PNone
  end.

(** *** The bulk lookup seen as a sequence of single-value lookups

    [lookups w app field values st] runs the single-value lookup for each
    value in turn, threading the state, and lists each value with the
    outcome of its lookup. *)
Fixpoint lookups (w : world) (app_name field_display_name : string)
    (values : list string) (st : state)
  : list (string * result (option Z)) * state :=
  match values with
  | [] => ([], st)
  | v :: rest =>
      let (r, st') := get_record_id_by_field w app_name field_display_name v st in
      let (outs, st'') := lookups w app_name field_display_name rest st' in
      ((v, r) :: outs, st'')
  end.

(** What one outcome does to [results] and to [ambiguities]. *)
Definition id_or_none (r : result (option Z)) : option Z :=
  match r with
  | Ok rid => rid
  | Raise _ => None
  end.

Definition record_result (results : results_dict) (out : string * result (option Z))
  : results_dict :=
  adict_set String.eqb results (fst out) (id_or_none (snd out)).

Definition record_ambiguity (ambiguities : ambiguities_dict)
    (out : string * result (option Z)) : ambiguities_dict :=
  match snd out with
  | Raise (AmbiguousMatch _ a_details) =>
      adict_set String.eqb ambiguities (fst out) (normalize_details a_details)
  | _ => ambiguities
  end.

Definition is_ambiguous (r : result (option Z)) : bool :=
  match r with
  | Raise (AmbiguousMatch _ _) => true
  | _ => false
  end.

Definition is_load (ev : event) : bool :=
  match ev with
  | FromApplication _ => true
  | _ => false
  end.

(** The number of times the application's metadata was loaded: one per
    single-value lookup started. *)
Definition count_loads (l : list event) : nat := List.length (filter is_load l).

(** *** Reading the aggregate exception

    [exception_reveals_results]: there is a way to read, from the exception
    a bulk lookup raises, the id resolved for every input value whose lookup
    was not ambiguous. *)
Definition exception_reveals_results : Prop :=
  exists see : exn -> string -> option Z,
    forall (w : world) (app_name field_display_name : string) (values : list string)
           (st : state) (e : exn),
      fst (get_record_ids_by_field_bulk w app_name field_display_name values st) = Raise e ->
      forall v r,
        In (v, r) (fst (lookups w app_name field_display_name values st)) ->
        is_ambiguous r = false ->
        see e v = id_or_none r.

(** ** Auxiliary definitions for the further properties *)

(** Values that can index a dictionary (lists and dictionaries cannot). *)
Definition hashable (v : pyval) : bool :=
  match v with
  | PList _ | PDict _ => false
  | _ => true
  end.

Definition is_http (ev : event) : bool :=
  match ev with
  | Http _ => true
  | _ => false
  end.

(** The number of requests sent to a server. *)
Definition count_http (l : list event) : nat := List.length (filter is_http l).

Definition is_dict (v : pyval) : bool :=
  match v with
  | PDict _ => true
  | _ => false
  end.

(** Two JSON objects with the same values under keys that are equal up
    to case, entry by entry. *)
Definition same_entry_up_to_case (kv kv' : pykey * pyval) : Prop :=
  snd kv = snd kv' /\
  exists k k', fst kv = KStr k /\ fst kv' = KStr k' /\ eq_ignore_case k k' = true.

(** The distinct elements of a list, each at the place of its first
    occurrence. *)
Fixpoint first_occurrences (l : list string) : list string :=
  match l with
  | [] => []
  | v :: rest => v :: filter (fun x => negb (String.eqb x v)) (first_occurrences rest)
  end.

(** Module ids as the host stores them: a string or an integer, a
    boolean, or [None] when missing. *)
Definition plain_id (raw : pyval) : bool :=
  match raw with
  | PNone | PBool _ | PInt _ | PStr _ => true
  | _ => false
  end.

(** Characters that can stand in a query-string value without ending it
    or starting another parameter. *)
Definition query_safe (c : ascii) : bool :=
  is_unreserved c || Ascii.eqb c "+" || Ascii.eqb c "%".

(** The number of records a decoded body of the primary search holds: the
    elements of a top-level array or of the [value] array, else one for
    an object standing for a single record. *)
Definition records_in (data : pyval) : nat :=
  match data with
  | PList items => List.length items
  | PDict d =>
      match adict_find pykey_eqb d (KStr "value") with
      | Some (PList items) => List.length items
      | _ => 1
      end
  | _ => 0
  end.

(** ** Further scenarios *)

Module MoreScenarios.
Import Scenarios.

(** A host whose metadata cannot be loaded. *)
Definition broken_host : world :=
  {| header := [(KStr "Authorization", PStr "Archer session-id=FAKE")];
     api_url_base := "https://fake/rsaarcher/api/";
     content_api_url_base := "https://fake/rsaarcher/contentapi/";
     from_application := fun _ a => (Some (RuntimeError "metadata unavailable"), a);
     get_value_id_by_field_name_and_value := fun _ _ _ => Ok [];
     requests := fun _ _ => exhausted;
     render := fun _ => "<object>";
     lower_non_ascii := fun s => s |}.

(** The probe succeeds and the primary search is then rejected. *)
Definition search_rejected_world : world :=
  fake_world no_value_ids [probe_ok; mock_response 500 (PDict [])] [].

(** The same value looked up twice, resolving to 555 and then to 556. *)
Definition twice_world : world :=
  fake_world no_value_ids
    [ probe_ok; mock_response 200 (PList [nested_id 555]);
      probe_ok; mock_response 200 (PList [nested_id 556]) ]
    [].

(** A primary search answered with a record and a stray number. *)
Definition stray_item_world : world :=
  fake_world no_value_ids [mock_response 200 (PList [nested_id 5; PInt 7])] [].

(** A primary search answered with an empty array. *)
Definition empty_body_world : world :=
  fake_world no_value_ids [mock_response 200 (PList [])] [].

(** [Status] is a values list whose resolution fails for the value
    [C-3]; [A-1] is found as the record 555 and [B-2] matches nothing. *)
Definition resolution_fails_for_c3 : world :=
  {| header := [(KStr "Authorization", PStr "Archer session-id=FAKE")];
     api_url_base := "https://fake/rsaarcher/api/";
     content_api_url_base := "https://fake/rsaarcher/contentapi/";
     from_application := fun _ a => (None, a);
     get_value_id_by_field_name_and_value := fun _ value _ =>
       if String.eqb value "C-3" then Raise (RuntimeError "values list unavailable")
       else Ok [PInt 1];
     requests := fun history req =>
       match req with
       | POST _ _ _ _ =>
           nth (count_posts history)
             [ probe_ok; mock_response 200 (PList [nested_id 555]);
               probe_ok; mock_response 200 (PList []) ]
             exhausted
       | GET _ _ _ => exhausted
       end;
     render := fun _ => "<object>";
     lower_non_ascii := fun s => s |}.

(** The name [Etat] written with a capital E with acute accent (the two
    bytes 195, 137 in UTF-8), and with a small one (195, 169). *)
Definition etat_capital : string := String "195" (String "137" "tat").
Definition etat_small : string := String "195" (String "169" "tat").

(** A host whose interpreter lower-cases the capital form to the small
    one, as [str.lower()] does. *)
Definition accent_world : world :=
  {| header := [];
     api_url_base := "https://fake/rsaarcher/api/";
     content_api_url_base := "https://fake/rsaarcher/contentapi/";
     from_application := fun _ a => (None, a);
     get_value_id_by_field_name_and_value := fun _ _ _ => Ok [];
     requests := fun _ _ => exhausted;
     render := fun _ => "<object>";
     lower_non_ascii := fun s => if String.eqb s etat_capital then etat_small else s |}.

Definition accent_fields : dict :=
  [ (KStr etat_capital, PInt 30);
    (KInt 30, PDict [(KStr "Type", PInt 1)]) ].

(** A directory listing that starts with a stray string. *)
Definition stray_entry_world : world :=
  fake_world no_value_ids []
    [ mock_response 200
        (value_listing [ PStr "junk";
                         PDict [(KStr "name", PStr "App"); (KStr "url", PStr "Endpoint")] ]) ].

End MoreScenarios.

(** * Properties *)

(** ** Basic facts about the builtins *)

Lemma pykey_eqb_eq a b : pykey_eqb a b = true <-> a = b.
Proof.
  destruct a, b; simpl; try (split; [discriminate | intros H; discriminate H]).
  - rewrite String.eqb_eq. split; congruence.
  - rewrite Z.eqb_eq. split; congruence.
Qed.

Lemma pykey_eqb_refl a : pykey_eqb a a = true.
Proof. now apply pykey_eqb_eq. Qed.

Example lower_example : lower "Ticket Number" = "ticket number".
Proof. reflexivity. Qed.
Example int_example : py_int (PStr " -1_000 ") = Ok (-1000).
Proof. reflexivity. Qed.
Example int_example2 : py_int (PStr "1__0") = Raise (ValueError EmptyString).
Proof. reflexivity. Qed.
Example str_example : py_str (fun _ => EmptyString) (PInt (-120)) = "-120" /\ py_str (fun _ => EmptyString) (PInt 0) = "0".
Proof. split; reflexivity. Qed.
Example quote_example : quote_plus "Ticket Number eq 'A/1'" = "Ticket+Number+eq+%27A%2F1%27".
Proof. reflexivity. Qed.
Example endswith_example : endswith "endpoint_id" "_id" = true /\ endswith "id" "_id" = false.
Proof. split; reflexivity. Qed.

(** ** The repository's tests *)

Module ScenarioTests.
Import Scenarios.

Example test_rest_single_result :
  fst (get_record_id_by_field
         (fake_world no_value_ids [probe_ok; mock_response 200 (PList [nested_id 555])] [])
         "App" "Ticket Number" "SOME-VALUE" (fake_state ticket_fields))
  = Ok (Some 555).
Proof. reflexivity. Qed.

Example test_rest_no_result :
  fst (get_record_id_by_field
         (fake_world no_value_ids [probe_ok; mock_response 200 (PList [])] [])
         "App" "Ticket Number" "NOPE" (fake_state ticket_fields))
  = Ok None.
Proof. reflexivity. Qed.

Example test_rest_multiple_results_raises :
  fst (get_record_id_by_field
         (fake_world no_value_ids
            [probe_ok; mock_response 200 (PList [nested_id 1; nested_id 2])] [])
         "App" "Ticket Number" "DUP" (fake_state ticket_fields))
  = Raise (AmbiguousMatch
             "Multiple records found for value 'DUP' in field 'Ticket Number'"
             (PList [PInt 1; PInt 2])).
Proof. reflexivity. Qed.

Example test_values_list_rest_search :
  let w := fake_world open_is_999 [probe_ok; mock_response 200 (PList [nested_id 777])] [] in
  let run := get_record_id_by_field w "App" "Status" "Open" (fake_state status_fields) in
  fst run = Ok (Some 777) /\
  log (snd run) =
    [ FromApplication "App"; GetValueId "Status" "Open";
      Http (probe_request w 100);
      Http (search_request w 100 (PInt 20) (PInt 999) 2) ].
Proof. split; reflexivity. Qed.

Example test_contentapi_fallback :
  let w := fake_world no_value_ids [mock_response 404 (PDict [])]
             [ mock_response 200 (directory_of "App" "Endpoint");
               mock_response 200 (PDict [(KStr "value", PList [PDict [(KStr "Endpoint_Id", PInt 222)]])]) ] in
  let run := get_record_id_by_field w "App" "Ticket Number" "XYZ" (fake_state ticket_fields) in
  fst run = Ok (Some 222) /\
  log (snd run) =
    [ FromApplication "App";
      Http (probe_request w 100);
      Http (GET "https://fake/rsaarcher/contentapi/" (header w) 15);
      Http (GET "https://fake/rsaarcher/contentapi/Endpoint?$filter=Ticket+Number+eq+%27XYZ%27&$select=Endpoint_Id"
                (header w) 15) ].
Proof. split; reflexivity. Qed.

Example test_resolve_field_case_insensitive :
  fst (_resolve_field_id_by_display_name (fake_world no_value_ids [] [])
         "App" "ticket number" (fake_state ticket_fields))
  = Ok (PInt 10).
Proof. reflexivity. Qed.

End ScenarioTests.

(** ** The capability probe *)

(** C4.  The probe always returns a boolean, and that boolean is [False]
    exactly when the primary endpoint answers 404 or 405 or the request
    raises; any other status gives [True], whatever the body ([json], [text])
    of the response. *)
Theorem C4_probe_false_iff_unsupported_or_failed (w : world) (module_id : Z) (st : state) :
  exists b : bool,
    fst (_supports_rest_search w module_id st) = Ok b /\
    (b = false <->
       (exists r, requests w (log st) (probe_request w module_id) = Responded r /\
                  (status_code r = 404 \/ status_code r = 405)) \/
       (exists e, requests w (log st) (probe_request w module_id) = Failed e)).
Proof.
  unfold _supports_rest_search, try_except, bind, http.
  destruct (requests w (log st) (probe_request w module_id)) as [r | e] eqn:Hreq; simpl.
  - destruct (status_code r =? 404) eqn:H404; simpl.
    + exists false. split; [reflexivity |].
      split; [intros _ | reflexivity].
      left. exists r. split; [reflexivity | left; now apply Z.eqb_eq].
    + destruct (status_code r =? 405) eqn:H405; simpl.
      * exists false. split; [reflexivity |].
        split; [intros _ | reflexivity].
        left. exists r. split; [reflexivity | right; now apply Z.eqb_eq].
      * exists true. split; [reflexivity |].
        split; [discriminate |].
        apply Z.eqb_neq in H404, H405.
        intros [[r' [Hr' Hs]] | [e He]]; [| discriminate He].
        injection Hr' as <-. destruct Hs; contradiction.
  - exists false. split; [reflexivity |].
    split; [intros _ | reflexivity].
    right. now exists e.
Qed.

(** ** How each transport call runs

    One equation per method that talks to a server: its result as a
    function of the server's answer, and the state it leaves (the request
    appended to the log, nothing else touched). *)

Lemma supports_rest_search_run (w : world) (module_id : Z) (st : state) :
  _supports_rest_search w module_id st =
  (Ok match requests w (log st) (probe_request w module_id) with
      | Responded r => negb ((status_code r =? 404) || (status_code r =? 405))
      | Failed _ => false
      end,
   record (Http (probe_request w module_id)) st).
Proof.
  unfold _supports_rest_search, try_except, bind, http.
  destruct (requests w (log st) (probe_request w module_id)) as [r | e]; simpl; [| reflexivity].
  now destruct ((status_code r =? 404) || (status_code r =? 405)).
Qed.

Lemma rest_search_run (w : world) (module_id : Z) (field_id value : pyval) (limit : Z)
    (st : state) :
  _rest_search_record_ids w module_id field_id value limit st =
  (Ok match requests w (log st) (search_request w module_id field_id value limit) with
      | Responded r =>
          if 400 <=? status_code r then []
          else ids_or_empty (rbind (resp_json r) rest_ids_of)
      | Failed _ => []
      end,
   record (Http (search_request w module_id field_id value limit)) st).
Proof.
  unfold _rest_search_record_ids, try_except, bind, http, lift.
  destruct (requests w (log st) _) as [r | e]; simpl; [| reflexivity].
  destruct (400 <=? status_code r); simpl; [reflexivity |].
  destruct (resp_json r) as [data | e]; simpl; [| reflexivity].
  now destruct (rest_ids_of data).
Qed.

Lemma contentapi_search_run (w : world) (endpoint_url : pyval)
    (field_display_name field_value : string) (st : state) :
  _contentapi_search_record_ids w endpoint_url field_display_name field_value st =
  (Ok match requests w (log st)
              (contentapi_request w endpoint_url field_display_name field_value) with
      | Responded r =>
          if 400 <=? status_code r then []
          else ids_or_empty
                 (rbind (resp_json r) (contentapi_ids_of (select_field_of w endpoint_url)))
      | Failed _ => []
      end,
   record (Http (contentapi_request w endpoint_url field_display_name field_value)) st).
Proof.
  unfold _contentapi_search_record_ids, try_except, bind, http, lift.
  destruct (requests w (log st) _) as [r | e]; simpl; [| reflexivity].
  destruct (400 <=? status_code r); simpl; [reflexivity |].
  destruct (resp_json r) as [data | e]; simpl; [| reflexivity].
  now destruct (contentapi_ids_of _ data).
Qed.

Lemma get_grc_endpoint_url_run (w : world) (app_name : string) (st : state) :
  _get_grc_endpoint_url w app_name st =
  (Ok match requests w (log st) (directory_request w) with
      | Responded r => endpoint_or_none (rbind (resp_json r) (endpoint_of_directory app_name))
      | Failed _ => PNone
      end,
   record (Http (directory_request w)) st).
Proof.
  unfold _get_grc_endpoint_url, try_except, bind, http, lift.
  destruct (requests w (log st) _) as [r | e]; simpl; [| reflexivity].
  destruct (resp_json r) as [data | e]; simpl; [| reflexivity].
  now destruct (endpoint_of_directory app_name data) as [[url |] | e].
Qed.

(** ** Operational failures of the two strategies *)

(** C6.  Neither strategy raises: each always returns a list of ids, and
    that list is empty when the server answers with a status of 400 or
    more, when the request itself raises, when the body cannot be decoded,
    and when its normalisation raises. *)
Theorem C6_strategies_swallow_operational_failures (w : world) (st : state) :
  (forall module_id field_id value limit,
     let req := search_request w module_id field_id value limit in
     let run := _rest_search_record_ids w module_id field_id value limit st in
     (exists ids, fst run = Ok ids) /\
     (forall r, requests w (log st) req = Responded r ->
                400 <= status_code r -> fst run = Ok []) /\
     (forall e, requests w (log st) req = Failed e -> fst run = Ok []) /\
     (forall r, requests w (log st) req = Responded r ->
                json r = None -> fst run = Ok []) /\
     (forall r data e, requests w (log st) req = Responded r ->
                json r = Some data -> rest_ids_of data = Raise e -> fst run = Ok [])) /\
  (forall endpoint_url field_display_name field_value,
     let req := contentapi_request w endpoint_url field_display_name field_value in
     let run := _contentapi_search_record_ids w endpoint_url field_display_name field_value st in
     (exists ids, fst run = Ok ids) /\
     (forall r, requests w (log st) req = Responded r ->
                400 <= status_code r -> fst run = Ok []) /\
     (forall e, requests w (log st) req = Failed e -> fst run = Ok []) /\
     (forall r, requests w (log st) req = Responded r ->
                json r = None -> fst run = Ok []) /\
     (forall r data e, requests w (log st) req = Responded r ->
                json r = Some data ->
                contentapi_ids_of (select_field_of w endpoint_url) data = Raise e ->
                fst run = Ok [])).
Proof.
  split.
  - intros module_id field_id value limit req run. subst req run.
    rewrite rest_search_run. simpl.
    repeat split.
    + eexists. reflexivity.
    + intros r -> Hs. apply Z.leb_le in Hs. now rewrite Hs.
    + now intros e ->.
    + intros r -> Hj. unfold resp_json. rewrite Hj. simpl.
      now destruct (400 <=? status_code r).
    + intros r data e -> Hj He. unfold resp_json. rewrite Hj. simpl. rewrite He. simpl.
      now destruct (400 <=? status_code r).
  - intros endpoint_url field_display_name field_value req run. subst req run.
    rewrite contentapi_search_run. simpl.
    repeat split.
    + eexists. reflexivity.
    + intros r -> Hs. apply Z.leb_le in Hs. now rewrite Hs.
    + now intros e ->.
    + intros r -> Hj. unfold resp_json. rewrite Hj. simpl.
      now destruct (400 <=? status_code r).
    + intros r data e -> Hj He. unfold resp_json. rewrite Hj. simpl. rewrite He. simpl.
      now destruct (400 <=? status_code r).
Qed.

(** ** Classification of the ids found *)

Lemma classify_cases (field_display_name field_value : string) (ids : list Z) :
  (ids = [] -> classify field_display_name field_value ids = Ok None) /\
  (forall id, ids = [id] -> classify field_display_name field_value ids = Ok (Some id)) /\
  ((2 <= List.length ids)%nat ->
   classify field_display_name field_value ids
   = Raise (multiple_records field_display_name field_value ids)).
Proof.
  repeat split.
  - now intros ->.
  - now intros id ->.
  - destruct ids as [| a [| b rest]]; simpl; intros H; try lia. reflexivity.
Qed.

(** A lookup that reaches a search strategy ends in the classification of
    the ids the strategy returned. *)
Lemma lookup_reaching_search
    (w : world) (app_name field_display_name field_value : string)
    (st st1 st2 st3 st4 : state) (field_id token : pyval) (module_id : Z)
    (supported : bool) (ids : list Z) :
  _resolve_field_id_by_display_name w app_name field_display_name st = (Ok field_id, st1) ->
  module_id_of w (application_level_id (archer st1)) = Ok module_id ->
  _get_value_or_value_id w field_display_name field_id field_value st1 = (Ok token, st2) ->
  _supports_rest_search w module_id st2 = (Ok supported, st3) ->
  (supported = true /\
   _rest_search_record_ids w module_id field_id token 2 st3 = (Ok ids, st4))
  \/
  (supported = false /\
   exists endpoint st3',
     _get_grc_endpoint_url w app_name st3 = (Ok endpoint, st3') /\
     truthy endpoint = true /\
     _contentapi_search_record_ids w endpoint field_display_name field_value st3'
     = (Ok ids, st4)) ->
  let outcome := get_record_id_by_field w app_name field_display_name field_value st in
  snd outcome = st4 /\
  (ids = [] -> fst outcome = Ok None) /\
  (forall id, ids = [id] -> fst outcome = Ok (Some id)) /\
  ((2 <= List.length ids)%nat ->
   fst outcome
   = Raise (AmbiguousMatch
              ("Multiple records found for value '" ++ field_value
               ++ "' in field '" ++ field_display_name ++ "'")
              (PList (map PInt ids)))).
Proof.
  intros Hres Hmod Htok Hprobe Hsearch outcome.
  assert (Hrun : outcome = (classify field_display_name field_value ids, st4)).
  { subst outcome. unfold get_record_id_by_field, bind at 1.
    rewrite Hres. unfold bind at 1, get_archer at 1.
    unfold bind at 1, lift at 1. rewrite Hmod.
    unfold bind at 1. rewrite Htok.
    unfold bind at 1. rewrite Hprobe.
    destruct Hsearch as [[-> Hs] | [-> (endpoint & st3' & Hep & Htr & Hs)]].
    - unfold bind. rewrite Hs. reflexivity.
    - unfold bind at 1. rewrite Hep. rewrite Htr. simpl.
      unfold bind. rewrite Hs. reflexivity. }
  rewrite Hrun. simpl.
  split; [reflexivity |].
  apply classify_cases.
Qed.

(** C3.  In a single-value lookup that gets as far as a search strategy
    (the primary search when the probe says supported, the fallback query
    when it does not and an endpoint was discovered), the ids [ids] that the
    strategy returns decide the outcome by their number: none gives [None],
    one gives that id, two or more raise [AmbiguousMatch] whose [details]
    is the whole list in the order returned. *)
Theorem C3_lookup_classifies_by_count
    (w : world) (app_name field_display_name field_value : string)
    (st st1 st2 st3 st4 : state) (field_id token : pyval) (module_id : Z)
    (supported : bool) (ids : list Z) :
  _resolve_field_id_by_display_name w app_name field_display_name st = (Ok field_id, st1) ->
  module_id_of w (application_level_id (archer st1)) = Ok module_id ->
  _get_value_or_value_id w field_display_name field_id field_value st1 = (Ok token, st2) ->
  _supports_rest_search w module_id st2 = (Ok supported, st3) ->
  (supported = true /\
   _rest_search_record_ids w module_id field_id token 2 st3 = (Ok ids, st4))
  \/
  (supported = false /\
   exists endpoint st3',
     _get_grc_endpoint_url w app_name st3 = (Ok endpoint, st3') /\
     truthy endpoint = true /\
     _contentapi_search_record_ids w endpoint field_display_name field_value st3'
     = (Ok ids, st4)) ->
  let outcome := get_record_id_by_field w app_name field_display_name field_value st in
  snd outcome = st4 /\
  (ids = [] -> fst outcome = Ok None) /\
  (forall id, ids = [id] -> fst outcome = Ok (Some id)) /\
  ((2 <= List.length ids)%nat ->
   fst outcome
   = Raise (AmbiguousMatch
              ("Multiple records found for value '" ++ field_value
               ++ "' in field '" ++ field_display_name ++ "'")
              (PList (map PInt ids)))).
Proof.
  intros Hres Hmod Htok Hprobe Hsearch.
  exact (lookup_reaching_search w app_name field_display_name field_value
           st st1 st2 st3 st4 field_id token module_id supported ids
           Hres Hmod Htok Hprobe Hsearch).
Qed.

(** ** Field resolution *)

Lemma nat_of_lower_ascii (c : ascii) :
  nat_of_ascii (lower_ascii c)
  = if is_upper c then (nat_of_ascii c + 32)%nat else nat_of_ascii c.
Proof.
  unfold lower_ascii.
  destruct (is_upper c) eqn:Hu; [| reflexivity].
  apply nat_ascii_embedding.
  unfold is_upper in Hu. apply andb_true_iff in Hu as [_ Hu].
  apply Nat.leb_le in Hu. lia.
Qed.

Lemma lower_ascii_eq_iff (c d : ascii) :
  lower_ascii c = lower_ascii d <-> same_letter c d = true.
Proof.
  assert (Hinj : forall x y : ascii, nat_of_ascii x = nat_of_ascii y -> x = y).
  { intros x y H. rewrite <- (ascii_nat_embedding x), <- (ascii_nat_embedding y).
    now rewrite H. }
  unfold same_letter.
  rewrite !orb_true_iff, !andb_true_iff, !Nat.eqb_eq, Ascii.eqb_eq.
  split.
  - intros H. apply (f_equal nat_of_ascii) in H.
    rewrite !nat_of_lower_ascii in H.
    unfold is_upper in *.
    destruct ((65 <=? nat_of_ascii c)%nat && (nat_of_ascii c <=? 90)%nat) eqn:Hc;
      destruct ((65 <=? nat_of_ascii d)%nat && (nat_of_ascii d <=? 90)%nat) eqn:Hd.
    + left; left. apply Hinj. lia.
    + left; right. split; [reflexivity | lia].
    + right. split; [reflexivity | lia].
    + left; left. now apply Hinj.
  - intros H. apply Hinj. rewrite !nat_of_lower_ascii.
    unfold is_upper in *.
    destruct H as [[-> | [Hc Hd]] | [Hd Hc]]; [reflexivity | |].
    + rewrite Hc.
      apply andb_true_iff in Hc as [Hc1 Hc2].
      apply Nat.leb_le in Hc1, Hc2.
      replace ((65 <=? nat_of_ascii d)%nat && (nat_of_ascii d <=? 90)%nat) with false; [lia |].
      symmetry. apply andb_false_iff. right. apply Nat.leb_gt. lia.
    + rewrite Hd.
      apply andb_true_iff in Hd as [Hd1 Hd2].
      apply Nat.leb_le in Hd1, Hd2.
      replace ((65 <=? nat_of_ascii c)%nat && (nat_of_ascii c <=? 90)%nat) with false; [lia |].
      symmetry. apply andb_false_iff. right. apply Nat.leb_gt. lia.
Qed.

(** Comparing the lower-cased strings, as the code does, is equality up
    to case. *)
Lemma lower_eqb_ignore_case (s t : string) :
  String.eqb (lower s) (lower t) = eq_ignore_case s t.
Proof.
  revert t. induction s as [| c s IH]; intros [| d t]; simpl; try reflexivity.
  rewrite <- IH.
  destruct (same_letter c d) eqn:Hl.
  - apply lower_ascii_eq_iff in Hl. rewrite Hl, Ascii.eqb_refl. reflexivity.
  - destruct (Ascii.eqb (lower_ascii c) (lower_ascii d)) eqn:He; [| reflexivity].
    apply Ascii.eqb_eq, lower_ascii_eq_iff in He. congruence.
Qed.

(** On ASCII names, equality of the lower-cased forms is equality up to
    case. *)
Lemma name_matches_ascii (w : world) (key name : string) :
  is_ascii key = true -> is_ascii name = true ->
  name_matches w key name = eq_ignore_case key name.
Proof.
  intros Hk Hn. unfold name_matches, display_name_lower, str_lower.
  rewrite Hk, Hn. apply lower_eqb_ignore_case.
Qed.

(** The loop returns the value of the first string key that matches the
    name ignoring case, and nothing when there is none. *)
Lemma first_display_name_match_some (w : world) (name : string) (af : dict) (val : pyval) :
  first_display_name_match w (display_name_lower w name) af = Some val ->
  exists before key after,
    af = (before ++ (KStr key, val) :: after)%list /\
    name_matches w key name = true /\
    (forall k v, In (KStr k, v) before -> name_matches w k name = false).
Proof.
  induction af as [| [[key | z] v] rest IH]; simpl; [discriminate | |].
  - fold (name_matches w key name).
    destruct (name_matches w key name) eqn:Hk.
    + intros [= ->]. exists [], key, rest. repeat split; [assumption |].
      intros k v' [].
    + intros H. destruct (IH H) as (before & key' & after & -> & Hm & Hb).
      exists ((KStr key, v) :: before), key', after. repeat split; [assumption |].
      intros k v' [[= <- <-] | Hin]; [assumption | eauto].
  - intros H. destruct (IH H) as (before & key' & after & -> & Hm & Hb).
    exists ((KInt z, v) :: before), key', after. repeat split; [assumption |].
    intros k v' [[=] | Hin]. eauto.
Qed.

Lemma first_display_name_match_none (w : world) (name : string) (af : dict) :
  first_display_name_match w (display_name_lower w name) af = None <->
  (forall key val, In (KStr key, val) af -> name_matches w key name = false).
Proof.
  induction af as [| [[key | z] v] rest IH]; simpl.
  - split; [intros _ key val [] | reflexivity].
  - fold (name_matches w key name).
    destruct (name_matches w key name) eqn:Hk.
    + split; [discriminate |]. intros H. specialize (H key v (or_introl eq_refl)). congruence.
    + rewrite IH. split.
      * intros H k v' [[= <- <-] | Hin]; [assumption | eauto].
      * intros H k v' Hin. eauto.
  - rewrite IH. split.
    + intros H k v' [[=] | Hin]. eauto.
    + intros H k v' Hin. eauto.
Qed.

(** C8.  Once the application's metadata is loaded, field resolution
    compares the display name with the string keys of the metadata
    ignoring case, that is, after [str.lower()] on both sides (on ASCII
    names: equality up to the case of the letters).  If some key matches
    it returns the id mapped by a matching key (the first one in the
    metadata's order), and if none matches it raises the field-not-found
    [ValueError] and returns nothing. *)
Theorem C8_field_resolution_ignores_case
    (w : world) (app_name field_display_name : string) (st : state) (a' : archer_state) :
  from_application w app_name (archer st) = (None, a') ->
  let af := application_fields_json a' in
  let outcome := fst (_resolve_field_id_by_display_name w app_name field_display_name st) in
  ((exists key val, In (KStr key, val) af /\ name_matches w key field_display_name = true) ->
   exists before key val after,
     af = (before ++ (KStr key, val) :: after)%list /\
     name_matches w key field_display_name = true /\
     (forall k v, In (KStr k, v) before -> name_matches w k field_display_name = false) /\
     outcome = Ok val) /\
  ((forall key val, In (KStr key, val) af -> name_matches w key field_display_name = false) ->
   outcome = Raise (field_not_found app_name field_display_name)) /\
  (forall key name,
     name_matches w key name
     = String.eqb (str_lower (lower_non_ascii w) key) (str_lower (lower_non_ascii w) name)) /\
  (forall key name,
     is_ascii key = true -> is_ascii name = true ->
     name_matches w key name = eq_ignore_case key name).
Proof.
  intros Hload af outcome.
  assert (Hrun : outcome
                 = match first_display_name_match w
                           (display_name_lower w field_display_name) af with
                   | Some val => Ok val
                   | None => Raise (field_not_found app_name field_display_name)
                   end).
  { subst outcome af.
    unfold _resolve_field_id_by_display_name, bind, call_from_application, get_archer.
    rewrite Hload. simpl.
    now destruct (first_display_name_match _ _ _). }
  split; [| split; [| split]].
  - intros (key & val & Hin & Hm).
    destruct (first_display_name_match w (display_name_lower w field_display_name) af)
      as [v |] eqn:Hf.
    + destruct (first_display_name_match_some _ _ _ _ Hf)
        as (before & k & after & Haf & Hk & Hb).
      exists before, k, v, after. auto.
    + rewrite first_display_name_match_none in Hf. rewrite (Hf _ _ Hin) in Hm. discriminate.
  - intros Hnone. apply first_display_name_match_none in Hnone.
    now rewrite Hrun, Hnone.
  - reflexivity.
  - intros key name. apply name_matches_ascii.
Qed.

(** ** The fallback path *)

Lemma entry_step (app_name : string) (ep : pyval) (rest candidates : list pyval) :
  entry_ok ep = true ->
  endpoint_loop app_name (ep :: rest) candidates
  = if String.eqb (name_of ep) app_name then Ok (Some (url_of ep))
    else if contains app_name (name_of ep)
         then endpoint_loop app_name rest (candidates ++ [url_of ep])%list
         else endpoint_loop app_name rest candidates.
Proof.
  destruct ep as [| | | | | | d]; try discriminate.
  unfold entry_ok, name_of, url_of. simpl.
  destruct (dict_get d (KStr "name") (PStr EmptyString)) as [| b | z | f | s | l | d'] eqn:Hn;
    simpl; intros Hok.
  - reflexivity.
  - destruct b; [discriminate | reflexivity].
  - destruct (z =? 0); [reflexivity | discriminate].
  - destruct f; try discriminate. reflexivity.
  - destruct (String.eqb s EmptyString) eqn:Hs; simpl; [| reflexivity].
    apply String.eqb_eq in Hs. subst s. reflexivity.
  - destruct l; [reflexivity | discriminate].
  - destruct d'; [reflexivity | discriminate].
Qed.

(** The single pass with its list of candidates computes the two-step
    selection: an exact match anywhere wins, else the first candidate. *)
Lemma endpoint_loop_selects (app_name : string) (eps candidates : list pyval) :
  forallb entry_ok eps = true ->
  endpoint_loop app_name eps candidates
  = Ok match find (fun ep => String.eqb (name_of ep) app_name) eps with
       | Some ep => Some (url_of ep)
       | None =>
           match candidates with
           | c :: _ => Some c
           | [] => option_map url_of (find (fun ep => contains app_name (name_of ep)) eps)
           end
       end.
Proof.
  revert candidates. induction eps as [| ep rest IH]; intros candidates Hok.
  - simpl. now destruct candidates.
  - simpl in Hok. apply andb_true_iff in Hok as [Hep Hrest].
    rewrite (entry_step _ _ _ _ Hep).
    cbn [find].
    destruct (String.eqb (name_of ep) app_name); [reflexivity |].
    destruct (contains app_name (name_of ep)).
    + rewrite (IH _ Hrest).
      destruct (find _ rest); [reflexivity |].
      now destruct candidates.
    + now rewrite (IH _ Hrest).
Qed.

(** Endpoint discovery on a well-formed listing returns the path of the
    selected entry; a failed request or an undecodable body gives [None]. *)
Lemma endpoint_discovery (w : world) (app_name : string) (st : state) :
  (forall r d eps,
     requests w (log st) (directory_request w) = Responded r ->
     json r = Some (PDict d) ->
     dict_get d (KStr "value") (PList []) = PList eps ->
     forallb entry_ok eps = true ->
     fst (_get_grc_endpoint_url w app_name st) = Ok (discovered_path app_name eps)) /\
  (forall e,
     requests w (log st) (directory_request w) = Failed e ->
     fst (_get_grc_endpoint_url w app_name st) = Ok PNone) /\
  (forall r,
     requests w (log st) (directory_request w) = Responded r ->
     json r = None ->
     fst (_get_grc_endpoint_url w app_name st) = Ok PNone).
Proof.
  rewrite get_grc_endpoint_url_run. simpl.
  repeat split.
  - intros r d eps -> Hj Hv Hok.
    unfold resp_json. rewrite Hj. simpl.
    unfold endpoint_of_directory. simpl. rewrite Hv. simpl.
    rewrite (endpoint_loop_selects _ _ _ Hok).
    unfold discovered_path, select_entry.
    destruct (find (fun ep => String.eqb (name_of ep) app_name) eps); [reflexivity |].
    now destruct (find (fun ep => contains app_name (name_of ep)) eps).
  - now intros e ->.
  - intros r -> Hj. unfold resp_json. now rewrite Hj.
Qed.

(** *** What each step of a lookup adds to the log *)

Lemma resolve_log (w : world) (app_name field_display_name : string) (st st1 : state)
    (r : result pyval) :
  _resolve_field_id_by_display_name w app_name field_display_name st = (r, st1) ->
  log st1 = (log st ++ [FromApplication app_name])%list.
Proof.
  unfold _resolve_field_id_by_display_name, bind, call_from_application, get_archer.
  destruct (from_application w app_name (archer st)) as [[e |] a']; simpl.
  - now intros [= _ <-].
  - destruct (first_display_name_match _ _ _); now intros [= _ <-].
Qed.

Lemma is_values_list_state (field_id : pyval) (st : state) :
  snd (_is_values_list field_id st) = st.
Proof.
  unfold _is_values_list, bind, get_archer, lift. simpl.
  destruct (dict_get_val _ field_id) as [info | e]; [| reflexivity].
  now destruct info.
Qed.

Lemma token_log (w : world) (field_display_name field_value : string) (field_id : pyval)
    (st1 st2 : state) (r : result pyval) :
  _get_value_or_value_id w field_display_name field_id field_value st1 = (r, st2) ->
  log st2 = log st1 \/
  log st2 = (log st1 ++ [GetValueId field_display_name field_value])%list.
Proof.
  unfold _get_value_or_value_id, bind.
  pose proof (is_values_list_state field_id st1) as Hs.
  destruct (_is_values_list field_id st1) as [[[|] | e] s]; simpl in Hs; subst s.
  - unfold call_get_value_id.
    destruct (get_value_id_by_field_name_and_value w _ _ _) as [[| id0 ids] | e];
      intros [= _ <-]; now right.
  - intros [= _ <-]. now left.
  - intros [= _ <-]. now left.
Qed.

Lemma probe_is_not_a_search (w : world) (m m' : Z) (f v : pyval) (l : Z) :
  probe_request w m <> search_request w m' f v l.
Proof. unfold probe_request, search_request. intros [=]. Qed.

(** A lookup whose probe says unsupported: discovery, then either
    [None] or the classified result of the fallback query; the log grows
    by the collaborator calls, the probe and GET requests only. *)
Lemma fallback_lookup
    (w : world) (app_name field_display_name field_value : string)
    (st st1 st2 st3 : state) (field_id token : pyval) (module_id : Z) :
  _resolve_field_id_by_display_name w app_name field_display_name st = (Ok field_id, st1) ->
  module_id_of w (application_level_id (archer st1)) = Ok module_id ->
  _get_value_or_value_id w field_display_name field_id field_value st1 = (Ok token, st2) ->
  _supports_rest_search w module_id st2 = (Ok false, st3) ->
  let outcome := get_record_id_by_field w app_name field_display_name field_value st in
  exists endpoint st4,
    _get_grc_endpoint_url w app_name st3 = (Ok endpoint, st4) /\
    (truthy endpoint = false -> outcome = (Ok None, st4)) /\
    (truthy endpoint = true ->
     exists ids st5,
       _contentapi_search_record_ids w endpoint field_display_name field_value st4
       = (Ok ids, st5) /\
       outcome = (classify field_display_name field_value ids, st5)) /\
    exists delta,
      log (snd outcome) = (log st ++ delta)%list /\
      forall url headers body timeout,
        In (Http (POST url headers body timeout)) delta ->
        POST url headers body timeout = probe_request w module_id.
Proof.
  intros Hres Hmod Htok Hprobe outcome.
  assert (Hrun : outcome
                 = bind (_get_grc_endpoint_url w app_name)
                     (fun endpoint =>
                        if negb (truthy endpoint) then ret None
                        else bind (_contentapi_search_record_ids
                                     w endpoint field_display_name field_value)
                               (fun ids => lift (classify field_display_name field_value ids)))
                     st3).
  { subst outcome. unfold get_record_id_by_field, bind at 1.
    rewrite Hres. unfold bind at 1, get_archer at 1.
    unfold bind at 1, lift at 1. rewrite Hmod.
    unfold bind at 1. rewrite Htok.
    unfold bind at 1. rewrite Hprobe. reflexivity. }
  pose proof (resolve_log _ _ _ _ _ _ Hres) as Hl1.
  pose proof (token_log _ _ _ _ _ _ _ Htok) as Hl2.
  rewrite supports_rest_search_run in Hprobe. injection Hprobe as _ Hst3.
  pose proof (get_grc_endpoint_url_run w app_name st3) as Hep.
  set (endpoint := match requests w (log st3) (directory_request w) with
                   | Responded r => _
                   | Failed _ => PNone
                   end) in Hep.
  exists endpoint, (record (Http (directory_request w)) st3).
  split; [exact Hep |].
  unfold bind in Hrun at 1. rewrite Hep in Hrun.
  split; [| split].
  - intros Hf. now rewrite Hrun, Hf.
  - intros Ht. rewrite Ht in Hrun. simpl in Hrun.
    pose proof (contentapi_search_run w endpoint field_display_name field_value
                  (record (Http (directory_request w)) st3)) as Hc.
    eexists _, _. split; [exact Hc |].
    rewrite Hrun. unfold bind. rewrite Hc. reflexivity.
  - assert (Hposts : forall pre url headers body timeout,
              (pre = [] \/ pre = [GetValueId field_display_name field_value]) ->
              forall post,
              (post = [] \/
               post = [Http (contentapi_request w endpoint field_display_name field_value)]) ->
              In (Http (POST url headers body timeout))
                 (FromApplication app_name :: pre
                  ++ Http (probe_request w module_id) :: Http (directory_request w) :: post)%list ->
              POST url headers body timeout = probe_request w module_id).
    { intros pre url headers body timeout Hpre post Hpost Hin.
      destruct Hin as [[=] | Hin].
      apply in_app_or in Hin. destruct Hin as [Hin | Hin].
      - destruct Hpre as [-> | ->]; [destruct Hin |].
        destruct Hin as [[=] | []].
      - destruct Hin as [Heq | [[=] | Hin]]; [now inversion Heq |].
        destruct Hpost as [-> | ->]; [destruct Hin |].
        destruct Hin as [[=] | []]. }
    destruct (truthy endpoint) eqn:Ht; simpl in Hrun.
    + unfold bind in Hrun. rewrite contentapi_search_run in Hrun.
      rewrite Hrun. simpl. subst st3. simpl.
      destruct Hl2 as [Hl2 | Hl2]; rewrite Hl2, Hl1, <- ?app_assoc; simpl;
        eexists; (split; [reflexivity |]); intros url headers body timeout Hin.
      * apply (Hposts [] url headers body timeout (or_introl eq_refl)
                 [Http (contentapi_request w endpoint field_display_name field_value)]
                 (or_intror eq_refl)). exact Hin.
      * apply (Hposts [GetValueId field_display_name field_value] url headers body timeout
                 (or_intror eq_refl)
                 [Http (contentapi_request w endpoint field_display_name field_value)]
                 (or_intror eq_refl)). exact Hin.
    + rewrite Hrun. simpl. subst st3. simpl.
      destruct Hl2 as [Hl2 | Hl2]; rewrite Hl2, Hl1, <- ?app_assoc; simpl;
        eexists; (split; [reflexivity |]); intros url headers body timeout Hin.
      * apply (Hposts [] url headers body timeout (or_introl eq_refl) [] (or_introl eq_refl)).
        exact Hin.
      * apply (Hposts [GetValueId field_display_name field_value] url headers body timeout
                 (or_intror eq_refl) [] (or_introl eq_refl)). exact Hin.
Qed.

(** C5.  In a single-value lookup whose probe reports unsupported, the
    only POST sent is the probe, so no primary structured search is
    performed.  Endpoint discovery on a well-formed directory listing
    yields the path of the entry whose name equals the application name,
    else of the first entry whose name contains it, else [None]; a failed
    directory request also yields [None].  If the discovered endpoint is
    absent (or empty) the lookup returns [None]; otherwise the ids returned
    by the fallback filtered query are classified and that is the
    lookup's outcome. *)
Theorem C5_unsupported_probe_takes_fallback_path
    (w : world) (app_name field_display_name field_value : string)
    (st st1 st2 st3 : state) (field_id token : pyval) (module_id : Z) :
  _resolve_field_id_by_display_name w app_name field_display_name st = (Ok field_id, st1) ->
  module_id_of w (application_level_id (archer st1)) = Ok module_id ->
  _get_value_or_value_id w field_display_name field_id field_value st1 = (Ok token, st2) ->
  _supports_rest_search w module_id st2 = (Ok false, st3) ->
  let outcome := get_record_id_by_field w app_name field_display_name field_value st in
  (forall r d eps,
     requests w (log st3) (directory_request w) = Responded r ->
     json r = Some (PDict d) ->
     dict_get d (KStr "value") (PList []) = PList eps ->
     forallb entry_ok eps = true ->
     fst (_get_grc_endpoint_url w app_name st3) = Ok (discovered_path app_name eps)) /\
  (forall e,
     requests w (log st3) (directory_request w) = Failed e ->
     fst (_get_grc_endpoint_url w app_name st3) = Ok PNone) /\
  exists endpoint st4,
    _get_grc_endpoint_url w app_name st3 = (Ok endpoint, st4) /\
    (truthy endpoint = false -> outcome = (Ok None, st4)) /\
    (truthy endpoint = true ->
     exists ids st5,
       _contentapi_search_record_ids w endpoint field_display_name field_value st4
       = (Ok ids, st5) /\
       outcome = (classify field_display_name field_value ids, st5)) /\
    exists delta,
      log (snd outcome) = (log st ++ delta)%list /\
      forall url headers body timeout,
        In (Http (POST url headers body timeout)) delta ->
        POST url headers body timeout = probe_request w module_id.
Proof.
  intros Hres Hmod Htok Hprobe outcome.
  destruct (endpoint_discovery w app_name st3) as (Hsel & Hfail & _).
  split; [exact Hsel |].
  split; [exact Hfail |].
  exact (fallback_lookup w app_name field_display_name field_value
           st st1 st2 st3 field_id token module_id Hres Hmod Htok Hprobe).
Qed.

(** ** Record id 0 under the two strategies *)

Lemma rest_list_loop_nested (zs : list Z) (ids : list Z) :
  rest_list_loop (map nested_id zs) ids
  = Ok (ids ++ filter (fun z => negb (z =? 0)) zs)%list.
Proof.
  revert ids. induction zs as [| z zs IH]; intros ids; simpl.
  - now rewrite app_nil_r.
  - unfold append_if_truthy. simpl.
    destruct (z =? 0); simpl.
    + apply IH.
    + rewrite IH, <- app_assoc. reflexivity.
Qed.

Lemma rest_value_loop_nested (zs : list Z) (ids : list Z) :
  rest_value_loop (map nested_id zs) ids
  = Ok (ids ++ filter (fun z => negb (z =? 0)) zs)%list.
Proof.
  revert ids. induction zs as [| z zs IH]; intros ids; simpl.
  - now rewrite app_nil_r.
  - unfold append_if_truthy. simpl.
    destruct (z =? 0); simpl.
    + apply IH.
    + rewrite IH, <- app_assoc. reflexivity.
Qed.

Lemma contentapi_loop_keyed (select_field : string) (zs : list Z) (ids : list Z) :
  contentapi_loop select_field (map (keyed_id select_field) zs) ids
  = Ok (ids ++ zs)%list.
Proof.
  revert ids. induction zs as [| z zs IH]; intros ids; simpl.
  - now rewrite app_nil_r.
  - unfold dict_get. simpl. rewrite String.eqb_refl. simpl.
    rewrite IH, <- app_assoc. reflexivity.
Qed.

(** C10.  The primary strategy's normalisation keeps an identifier only
    if it is truthy: from records with integer ids it returns the non-zero
    ones, and it skips an identifier that is [None] or empty; so a lookup
    whose primary search answers with the single record of id 0 returns
    [None].  The fallback strategy keeps every identifier that is not
    [None]: from records with integer ids it returns them all, and a lookup
    whose fallback query answers with the single record of id 0 returns 0. *)
Theorem C10_id_zero_dropped_by_primary_kept_by_fallback :
  (forall zs : list Z,
     rest_ids_of (PList (map nested_id zs)) = Ok (filter (fun z => negb (z =? 0)) zs) /\
     rest_ids_of (value_listing (map nested_id zs))
     = Ok (filter (fun z => negb (z =? 0)) zs)) /\
  (forall z : Z, rest_ids_of (nested_id z) = Ok (if z =? 0 then [] else [z])) /\
  (forall ids, append_if_truthy (PInt 0) ids = Ok ids /\
               append_if_truthy PNone ids = Ok ids /\
               append_if_truthy (PStr EmptyString) ids = Ok ids) /\
  (forall rid ids ids',
     append_if_truthy rid ids = Ok ids' -> ids' <> ids -> truthy rid = true) /\
  (forall select_field d rid,
     dict_get d (KStr select_field) PNone = rid -> rid <> PNone ->
     contentapi_loop select_field [PDict d] []
     = match py_int rid with Ok n => Ok [n] | Raise e => Raise e end) /\
  (forall select_field (zs : list Z),
     contentapi_ids_of select_field (value_listing (map (keyed_id select_field) zs)) = Ok zs) /\
  (forall (w : world) app_name field_display_name field_value st st1 st2 st3
          field_id token module_id r,
     _resolve_field_id_by_display_name w app_name field_display_name st = (Ok field_id, st1) ->
     module_id_of w (application_level_id (archer st1)) = Ok module_id ->
     _get_value_or_value_id w field_display_name field_id field_value st1 = (Ok token, st2) ->
     _supports_rest_search w module_id st2 = (Ok true, st3) ->
     requests w (log st3) (search_request w module_id field_id token 2) = Responded r ->
     status_code r < 400 ->
     json r = Some (PList [nested_id 0]) ->
     fst (get_record_id_by_field w app_name field_display_name field_value st) = Ok None) /\
  (forall (w : world) app_name field_display_name field_value st st1 st2 st3 st4
          field_id token module_id endpoint r,
     _resolve_field_id_by_display_name w app_name field_display_name st = (Ok field_id, st1) ->
     module_id_of w (application_level_id (archer st1)) = Ok module_id ->
     _get_value_or_value_id w field_display_name field_id field_value st1 = (Ok token, st2) ->
     _supports_rest_search w module_id st2 = (Ok false, st3) ->
     _get_grc_endpoint_url w app_name st3 = (Ok endpoint, st4) ->
     truthy endpoint = true ->
     requests w (log st4) (contentapi_request w endpoint field_display_name field_value)
     = Responded r ->
     status_code r < 400 ->
     json r = Some (value_listing [keyed_id (select_field_of w endpoint) 0]) ->
     fst (get_record_id_by_field w app_name field_display_name field_value st) = Ok (Some 0)).
Proof.
  split; [| split; [| split; [| split; [| split; [| split; [| split]]]]]].
  - intros zs. split.
    + simpl. now rewrite rest_list_loop_nested.
    + unfold value_listing, rest_ids_of. simpl. now rewrite rest_value_loop_nested.
  - intros z. unfold rest_ids_of, nested_id, append_if_truthy. simpl.
    now destruct (z =? 0).
  - intros ids. repeat split.
  - intros rid ids ids'. unfold append_if_truthy.
    destruct (truthy rid); [reflexivity |].
    intros [= ->] Hne. now contradiction Hne.
  - intros select_field d rid Hget Hrid. simpl. rewrite Hget.
    destruct rid as [| b | z | f | s | l | d']; try (now contradiction Hrid); simpl;
      try reflexivity.
    + destruct (float_trunc f); [reflexivity | now destruct f].
    + now destruct (parse_int s).
  - intros select_field zs.
    unfold contentapi_ids_of, value_listing. simpl.
    now rewrite contentapi_loop_keyed.
  - intros w app_name field_display_name field_value st st1 st2 st3
           field_id token module_id r Hres Hmod Htok Hprobe Hreq Hst Hj.
    pose proof (rest_search_run w module_id field_id token 2 st3) as Hs.
    rewrite Hreq in Hs.
    apply Z.leb_gt in Hst. rewrite Hst in Hs.
    unfold resp_json in Hs. rewrite Hj in Hs. simpl in Hs.
    destruct (lookup_reaching_search w app_name field_display_name field_value st st1 st2 st3 _
                field_id token module_id true [] Hres Hmod Htok Hprobe
                (or_introl (conj eq_refl Hs))) as (_ & H0 & _).
    now apply H0.
  - intros w app_name field_display_name field_value st st1 st2 st3 st4
           field_id token module_id endpoint r Hres Hmod Htok Hprobe Hep Ht Hreq Hst Hj.
    pose proof (contentapi_search_run w endpoint field_display_name field_value st4) as Hs.
    rewrite Hreq in Hs.
    apply Z.leb_gt in Hst. rewrite Hst in Hs.
    unfold resp_json in Hs. rewrite Hj in Hs.
    unfold value_listing, contentapi_ids_of in Hs. simpl in Hs.
    unfold dict_get in Hs. simpl in Hs. rewrite String.eqb_refl in Hs. simpl in Hs.
    destruct (lookup_reaching_search w app_name field_display_name field_value st st1 st2 st3 _
                field_id token module_id false [0] Hres Hmod Htok Hprobe
                (or_intror (conj eq_refl (ex_intro _ endpoint (ex_intro _ st4
                   (conj Hep (conj Ht Hs))))))) as (_ & _ & H1 & _).
    now apply H1.
Qed.

(** ** The bulk lookup *)

(** The loop is the fold of the single-value outcomes into the two
    dictionaries; it never raises. *)
Lemma bulk_loop_run (w : world) (app_name field_display_name : string)
    (values : list string) (results : results_dict) (ambiguities : ambiguities_dict)
    (st : state) :
  bulk_loop w app_name field_display_name values results ambiguities st
  = (Ok (fold_left record_result (fst (lookups w app_name field_display_name values st)) results,
         fold_left record_ambiguity (fst (lookups w app_name field_display_name values st))
           ambiguities),
     snd (lookups w app_name field_display_name values st)).
Proof.
  revert results ambiguities st.
  induction values as [| v rest IH]; intros results ambiguities st; [reflexivity |].
  cbn [bulk_loop lookups].
  unfold bind at 1, try_except, bind at 1.
  destruct (get_record_id_by_field w app_name field_display_name v st) as [[rid | e] st'].
  - cbn [ret fst snd]. rewrite IH.
    destruct (lookups w app_name field_display_name rest st') as [outs st'']. reflexivity.
  - destruct e; cbn [ret fst snd]; rewrite IH;
      destruct (lookups w app_name field_display_name rest st') as [outs st'']; reflexivity.
Qed.

Lemma bulk_run (w : world) (app_name field_display_name : string)
    (values : list string) (st : state) :
  get_record_ids_by_field_bulk w app_name field_display_name values st
  = let outs := fst (lookups w app_name field_display_name values st) in
    (match fold_left record_ambiguity outs [] with
     | _ :: _ => Raise (ambiguous_bulk (fold_left record_ambiguity outs []))
     | [] => Ok (fold_left record_result outs [])
     end,
     snd (lookups w app_name field_display_name values st)).
Proof.
  unfold get_record_ids_by_field_bulk, bind. rewrite bulk_loop_run.
  cbn [fst snd].
  now destruct (fold_left record_ambiguity _ []).
Qed.

Lemma lookups_values (w : world) (app_name field_display_name : string)
    (values : list string) (st : state) :
  map fst (fst (lookups w app_name field_display_name values st)) = values.
Proof.
  revert st. induction values as [| v rest IH]; intros st; [reflexivity |].
  cbn [lookups].
  destruct (get_record_id_by_field w app_name field_display_name v st) as [r st'].
  specialize (IH st').
  destruct (lookups w app_name field_display_name rest st') as [outs st''].
  simpl in *. now rewrite IH.
Qed.

(** *** Dictionaries keyed by strings *)

Section StringDict.
Context {V : Type}.
Implicit Types (d : list (string * V)) (k : string) (v : V).

Lemma find_set_same d k v :
  adict_find String.eqb (adict_set String.eqb d k v) k = Some v.
Proof.
  induction d as [| [k' v'] d IH]; simpl.
  - now rewrite String.eqb_refl.
  - destruct (String.eqb k' k) eqn:E; simpl; rewrite E; [reflexivity | exact IH].
Qed.

Lemma find_set_other d k k' v :
  k <> k' ->
  adict_find String.eqb (adict_set String.eqb d k v) k' = adict_find String.eqb d k'.
Proof.
  intros Hne. induction d as [| [k0 v0] d IH]; simpl.
  - apply String.eqb_neq in Hne. now rewrite Hne.
  - destruct (String.eqb k0 k) eqn:E; simpl.
    + apply String.eqb_eq in E. subst k0.
      apply String.eqb_neq in Hne. now rewrite Hne.
    + now rewrite IH.
Qed.

Lemma keys_set d k v k' :
  In k' (map fst (adict_set String.eqb d k v)) <-> k' = k \/ In k' (map fst d).
Proof.
  induction d as [| [k0 v0] d IH]; simpl.
  - intuition.
  - destruct (String.eqb k0 k) eqn:E; simpl.
    + apply String.eqb_eq in E. subst k0. intuition.
    + rewrite IH. intuition.
Qed.

Lemma nodup_set d k v :
  NoDup (map fst d) -> NoDup (map fst (adict_set String.eqb d k v)).
Proof.
  induction d as [| [k0 v0] d IH]; simpl; intros Hnd.
  - constructor; [intros [] | constructor].
  - inversion Hnd as [| ? ? Hnotin Hnd']; subst.
    destruct (String.eqb k0 k) eqn:E; simpl.
    + now constructor.
    + constructor; [| now apply IH].
      rewrite keys_set. intros [-> | Hin]; [| contradiction].
      now rewrite String.eqb_refl in E.
Qed.
End StringDict.

(** *** The result mapping *)

Lemma results_keys (outs : list (string * result (option Z))) (results : results_dict)
    (k : string) :
  In k (map fst (fold_left record_result outs results))
  <-> In k (map fst outs) \/ In k (map fst results).
Proof.
  revert results. induction outs as [| [v r] outs IH]; intros results; simpl.
  - intuition.
  - rewrite IH. unfold record_result. rewrite keys_set. simpl. intuition.
Qed.

Lemma results_nodup (outs : list (string * result (option Z))) (results : results_dict) :
  NoDup (map fst results) -> NoDup (map fst (fold_left record_result outs results)).
Proof.
  revert results. induction outs as [| [v r] outs IH]; intros results Hnd; simpl.
  - exact Hnd.
  - apply IH. now apply nodup_set.
Qed.

Lemma results_untouched (outs : list (string * result (option Z))) (results : results_dict)
    (k : string) :
  ~ In k (map fst outs) ->
  adict_find String.eqb (fold_left record_result outs results) k
  = adict_find String.eqb results k.
Proof.
  revert results. induction outs as [| [v r] outs IH]; intros results Hnotin; simpl.
  - reflexivity.
  - simpl in Hnotin. rewrite IH by tauto.
    unfold record_result. simpl. apply find_set_other. intros ->. tauto.
Qed.

(** The value kept for a key is the one of its last lookup. *)
Lemma results_last (pre post : list (string * result (option Z)))
    (v : string) (r : result (option Z)) (results : results_dict) :
  ~ In v (map fst post) ->
  adict_find String.eqb (fold_left record_result (pre ++ (v, r) :: post) results) v
  = Some (id_or_none r).
Proof.
  intros Hnotin. rewrite fold_left_app. simpl.
  rewrite results_untouched by assumption.
  unfold record_result. simpl. apply find_set_same.
Qed.

(** *** The ambiguity map *)

Lemma ambiguities_keys (outs : list (string * result (option Z)))
    (ambiguities : ambiguities_dict) (k : string) :
  In k (map fst (fold_left record_ambiguity outs ambiguities))
  <-> (exists r, In (k, r) outs /\ is_ambiguous r = true) \/ In k (map fst ambiguities).
Proof.
  revert ambiguities. induction outs as [| [v r] outs IH]; intros ambiguities; simpl.
  - split; [now right | intros [(r & [] & _) | H]; exact H].
  - rewrite IH. unfold record_ambiguity. simpl.
    split.
    + intros [(r' & Hin & Ha) | Hin].
      * left. exists r'. split; [now right | exact Ha].
      * destruct r as [rid | []]; try (now right).
        apply keys_set in Hin. destruct Hin as [-> | Hin]; [| now right].
        left. eexists. split; [left; reflexivity | reflexivity].
    + intros [(r' & [[= <- <-] | Hin] & Ha) | Hin].
      * right. destruct r as [rid | []]; try discriminate.
        apply keys_set. now left.
      * left. now exists r'.
      * right. destruct r as [rid | []]; try assumption.
        apply keys_set. now right.
Qed.

Lemma no_ambiguities_iff (outs : list (string * result (option Z))) :
  fold_left record_ambiguity outs [] = []
  <-> forallb (fun out => negb (is_ambiguous (snd out))) outs = true.
Proof.
  split.
  - intros Hempty. apply forallb_forall. intros [v r] Hin. simpl.
    destruct (is_ambiguous r) eqn:Ha; [| reflexivity].
    assert (Hk : In v (map fst (fold_left record_ambiguity outs []))).
    { apply ambiguities_keys. left. now exists r. }
    rewrite Hempty in Hk. destruct Hk.
  - intros Hall.
    destruct (fold_left record_ambiguity outs []) as [| [k l] rest] eqn:Hf; [reflexivity |].
    assert (Hk : In k (map fst (fold_left record_ambiguity outs []))).
    { rewrite Hf. now left. }
    apply ambiguities_keys in Hk. destruct Hk as [(r & Hin & Ha) | []].
    rewrite forallb_forall in Hall. specialize (Hall _ Hin). simpl in Hall.
    rewrite Ha in Hall. discriminate.
Qed.

(** C9.  The bulk lookup returns a mapping exactly when no single-value
    lookup is ambiguous, whatever else the lookups do.  Every input value
    is then a key of the mapping exactly once and it has no other key; the
    value under a key is the outcome of the (last) single-value lookup made
    for it: that id when the lookup found one, and [None] whenever the
    lookup failed, be it by returning [None] (nothing found, or a transport
    error swallowed by the strategies) or by raising any other exception,
    which the bulk lookup does not let through. *)
Theorem C9_bulk_mapping_has_each_value_once
    (w : world) (app_name field_display_name : string) (values : list string) (st : state) :
  let outs := fst (lookups w app_name field_display_name values st) in
  let run := fst (get_record_ids_by_field_bulk w app_name field_display_name values st) in
  (forall results,
     run = Ok results ->
     forallb (fun out => negb (is_ambiguous (snd out))) outs = true) /\
  (forallb (fun out => negb (is_ambiguous (snd out))) outs = true ->
   exists results,
     run = Ok results /\
     (forall v, In v values -> count_occ string_dec (map fst results) v = 1%nat) /\
     (forall v, In v (map fst results) -> In v values) /\
     (forall pre v r post,
        outs = (pre ++ (v, r) :: post)%list -> ~ In v (map fst post) ->
        (forall id, r = Ok (Some id) -> adict_find String.eqb results v = Some (Some id)) /\
        (r = Ok None -> adict_find String.eqb results v = Some None) /\
        (forall e, r = Raise e -> adict_find String.eqb results v = Some None))).
Proof.
  intros outs run. subst run.
  rewrite bulk_run. cbv zeta. cbn [fst]. fold outs.
  split.
  - intros results Hok.
    destruct (fold_left record_ambiguity outs []) eqn:Hamb; [| discriminate].
    now apply no_ambiguities_iff.
  - intros Hall. apply no_ambiguities_iff in Hall. rewrite Hall.
    exists (fold_left record_result outs []).
    split; [reflexivity |].
    assert (Hkeys : forall v, In v (map fst (fold_left record_result outs [])) <-> In v values).
    { intros v. rewrite results_keys. subst outs. rewrite lookups_values. simpl. tauto. }
    split; [| split].
    + intros v Hin.
      apply NoDup_count_occ'.
      * apply results_nodup. constructor.
      * now apply Hkeys.
    + intros v. apply Hkeys.
    + intros pre v r post Houts Hlast.
      rewrite Houts.
      repeat split.
      * intros id ->. now rewrite results_last.
      * intros ->. now rewrite results_last.
      * intros e ->. now rewrite results_last.
Qed.

Lemma ambiguities_nodup (outs : list (string * result (option Z)))
    (ambiguities : ambiguities_dict) :
  NoDup (map fst ambiguities) -> NoDup (map fst (fold_left record_ambiguity outs ambiguities)).
Proof.
  revert ambiguities. induction outs as [| [v r] outs IH]; intros ambiguities Hnd; simpl.
  - exact Hnd.
  - apply IH. unfold record_ambiguity. simpl.
    destruct r as [rid | []]; try assumption.
    now apply nodup_set.
Qed.

Lemma ambiguities_untouched (outs : list (string * result (option Z)))
    (ambiguities : ambiguities_dict) (k : string) :
  (forall r, In (k, r) outs -> is_ambiguous r = false) ->
  adict_find String.eqb (fold_left record_ambiguity outs ambiguities) k
  = adict_find String.eqb ambiguities k.
Proof.
  revert ambiguities. induction outs as [| [v r] outs IH]; intros ambiguities Hnone; simpl.
  - reflexivity.
  - rewrite IH by (intros r' Hin; apply Hnone; now right).
    unfold record_ambiguity. simpl.
    destruct r as [rid | []]; try reflexivity.
    apply find_set_other. intros ->.
    specialize (Hnone _ (or_introl eq_refl)). discriminate.
Qed.

(** The list kept for an ambiguous value is the one of its last ambiguous
    lookup. *)
Lemma ambiguities_last (pre post : list (string * result (option Z)))
    (v msg : string) (a_details : pyval) (ambiguities : ambiguities_dict) :
  (forall r, In (v, r) post -> is_ambiguous r = false) ->
  adict_find String.eqb
    (fold_left record_ambiguity (pre ++ (v, Raise (AmbiguousMatch msg a_details)) :: post)
       ambiguities) v
  = Some (normalize_details a_details).
Proof.
  intros Hnone. rewrite fold_left_app. simpl.
  rewrite ambiguities_untouched by assumption.
  unfold record_ambiguity. simpl. apply find_set_same.
Qed.

Lemma coerce_ints_of_ints (ids acc : list Z) :
  coerce_ints (map PInt ids) acc = (acc ++ ids)%list.
Proof.
  revert acc. induction ids as [| n ids IH]; intros acc; simpl.
  - now rewrite app_nil_r.
  - rewrite IH, <- app_assoc. reflexivity.
Qed.

(** The details of an [AmbiguousMatch] raised by the single-value lookup
    come back unchanged from the normalisation. *)
Lemma normalize_details_of_ints (ids : list Z) :
  normalize_details (PList (map PInt ids)) = ids.
Proof.
  unfold normalize_details.
  destruct ids as [| n ids]; [reflexivity |].
  change (coerce_ints (map PInt (n :: ids)) [] = n :: ids).
  now rewrite coerce_ints_of_ints.
Qed.

(** *** Every value is looked up *)

Lemma count_loads_app (l l' : list event) :
  count_loads (l ++ l') = (count_loads l + count_loads l')%nat.
Proof. unfold count_loads. now rewrite filter_app, length_app. Qed.

Lemma classify_state (field_display_name field_value : string) (ids : list Z) (st : state) :
  snd (lift (classify field_display_name field_value ids) st) = st.
Proof. reflexivity. Qed.

(** A single-value lookup loads the application's metadata exactly once,
    however it ends. *)
Lemma lookup_loads_once (w : world) (app_name field_display_name field_value : string)
    (st : state) :
  count_loads (log (snd (get_record_id_by_field w app_name field_display_name field_value st)))
  = S (count_loads (log st)).
Proof.
  unfold get_record_id_by_field. unfold bind at 1.
  destruct (_resolve_field_id_by_display_name w app_name field_display_name st)
    as [[field_id | e] st1] eqn:Hres;
    pose proof (resolve_log _ _ _ _ _ _ Hres) as Hl1.
  2:{ cbn [snd]. rewrite Hl1, count_loads_app. cbn. lia. }
  assert (H1 : count_loads (log st1) = S (count_loads (log st))).
  { rewrite Hl1, count_loads_app. cbn. lia. }
  unfold bind at 1, get_archer at 1. unfold bind at 1, lift at 1.
  destruct (module_id_of w (application_level_id (archer st1))) as [module_id | e];
    [| exact H1].
  unfold bind at 1.
  destruct (_get_value_or_value_id w field_display_name field_id field_value st1)
    as [[token | e] st2] eqn:Htok;
    pose proof (token_log _ _ _ _ _ _ _ Htok) as Hl2.
  2:{ cbn [snd]. destruct Hl2 as [-> | ->]; [exact H1 |].
      rewrite count_loads_app, H1. cbn. lia. }
  assert (H2 : count_loads (log st2) = S (count_loads (log st))).
  { destruct Hl2 as [-> | ->]; [exact H1 |]. rewrite count_loads_app, H1. cbn. lia. }
  unfold bind at 1. rewrite supports_rest_search_run.
  set (st3 := record (Http (probe_request w module_id)) st2).
  assert (H3 : count_loads (log st3) = S (count_loads (log st))).
  { subst st3. cbn [record log]. rewrite count_loads_app, H2. cbn. lia. }
  destruct (match requests w (log st2) (probe_request w module_id) with
            | Responded r => negb ((status_code r =? 404) || (status_code r =? 405))
            | Failed _ => false
            end).
  - unfold bind. rewrite rest_search_run. rewrite classify_state.
    cbn [record log]. rewrite count_loads_app, H3. cbn. lia.
  - unfold bind at 1. rewrite get_grc_endpoint_url_run.
    set (st4 := record (Http (directory_request w)) st3).
    assert (H4 : count_loads (log st4) = S (count_loads (log st))).
    { subst st4. cbn [record log]. rewrite count_loads_app, H3. cbn. lia. }
    destruct (negb (truthy _)); [exact H4 |].
    unfold bind. rewrite contentapi_search_run. rewrite classify_state.
    cbn [record log]. rewrite count_loads_app, H4. cbn. lia.
Qed.

Lemma lookups_load_each (w : world) (app_name field_display_name : string)
    (values : list string) (st : state) :
  count_loads (log (snd (lookups w app_name field_display_name values st)))
  = (count_loads (log st) + List.length values)%nat.
Proof.
  revert st. induction values as [| v rest IH]; intros st.
  - simpl. lia.
  - cbn [lookups].
    pose proof (lookup_loads_once w app_name field_display_name v st) as H1.
    destruct (get_record_id_by_field w app_name field_display_name v st) as [r st'].
    specialize (IH st').
    destruct (lookups w app_name field_display_name rest st') as [outs st''].
    cbn [snd] in *. rewrite IH, H1. simpl. lia.
Qed.

(** C1 (as stated, refuted).  Two runs of the bulk lookup on the values
    [A-1] and [B-2]: [A-1] resolves to 555 in the first run and to 556 in
    the second, [B-2] is ambiguous in both.  Both runs raise the very same
    exception, whose [details] only has the entry of [B-2]; so nothing read
    from the exception can tell the id resolved for [A-1]. *)
Lemma C1_counterexample :
  let st := Scenarios.fake_state Scenarios.ticket_fields in
  let w1 := Scenarios.one_then_two 555 in
  let w2 := Scenarios.one_then_two 556 in
  let raised :=
    Raise (AmbiguousMatch "Ambiguous matches found for one or more input values"
             (PDict [(KStr "B-2", PList [PInt 1; PInt 2])])) in
  fst (lookups w1 "App" "Ticket Number" ["A-1"; "B-2"] st)
  = [ ("A-1", Ok (Some 555));
      ("B-2", Raise (multiple_records "Ticket Number" "B-2" [1; 2])) ] /\
  fst (lookups w2 "App" "Ticket Number" ["A-1"; "B-2"] st)
  = [ ("A-1", Ok (Some 556));
      ("B-2", Raise (multiple_records "Ticket Number" "B-2" [1; 2])) ] /\
  fst (get_record_ids_by_field_bulk w1 "App" "Ticket Number" ["A-1"; "B-2"] st) = raised /\
  fst (get_record_ids_by_field_bulk w2 "App" "Ticket Number" ["A-1"; "B-2"] st) = raised /\
  ~ exception_reveals_results.
Proof.
  cbv zeta.
  assert (H1 : fst (lookups (Scenarios.one_then_two 555) "App" "Ticket Number" ["A-1"; "B-2"]
                      (Scenarios.fake_state Scenarios.ticket_fields))
               = [ ("A-1", Ok (Some 555));
                   ("B-2", Raise (multiple_records "Ticket Number" "B-2" [1; 2])) ])
    by reflexivity.
  assert (H2 : fst (lookups (Scenarios.one_then_two 556) "App" "Ticket Number" ["A-1"; "B-2"]
                      (Scenarios.fake_state Scenarios.ticket_fields))
               = [ ("A-1", Ok (Some 556));
                   ("B-2", Raise (multiple_records "Ticket Number" "B-2" [1; 2])) ])
    by reflexivity.
  assert (B1 : fst (get_record_ids_by_field_bulk (Scenarios.one_then_two 555)
                      "App" "Ticket Number" ["A-1"; "B-2"]
                      (Scenarios.fake_state Scenarios.ticket_fields))
               = Raise (AmbiguousMatch "Ambiguous matches found for one or more input values"
                          (PDict [(KStr "B-2", PList [PInt 1; PInt 2])])))
    by reflexivity.
  assert (B2 : fst (get_record_ids_by_field_bulk (Scenarios.one_then_two 556)
                      "App" "Ticket Number" ["A-1"; "B-2"]
                      (Scenarios.fake_state Scenarios.ticket_fields))
               = Raise (AmbiguousMatch "Ambiguous matches found for one or more input values"
                          (PDict [(KStr "B-2", PList [PInt 1; PInt 2])])))
    by reflexivity.
  repeat split; try assumption.
  intros [see Hsee].
  pose proof (Hsee _ _ _ _ _ _ B1 "A-1" (Ok (Some 555))) as S1.
  pose proof (Hsee _ _ _ _ _ _ B2 "A-1" (Ok (Some 556))) as S2.
  rewrite H1 in S1. rewrite H2 in S2.
  specialize (S1 (or_introl eq_refl) eq_refl).
  specialize (S2 (or_introl eq_refl) eq_refl).
  simpl in S1, S2. congruence.
Qed.

(** C1 (amended).  When the lookup of at least one input value raises
    [AmbiguousMatch], the bulk lookup still looks every input value up, in
    order, and only then raises the aggregate [AmbiguousMatch].  Its
    [details] is the ambiguity map and nothing else: its keys are exactly
    the values whose lookup was ambiguous, each once, each mapped to the ids
    of its (last) ambiguous lookup. *)
Theorem C1_bulk_raises_ambiguity_map_after_all_values
    (w : world) (app_name field_display_name : string) (values : list string) (st : state) :
  let outs := fst (lookups w app_name field_display_name values st) in
  let run := get_record_ids_by_field_bulk w app_name field_display_name values st in
  (exists v r, In (v, r) outs /\ is_ambiguous r = true) ->
  map fst outs = values /\
  snd run = snd (lookups w app_name field_display_name values st) /\
  count_loads (log (snd run)) = (count_loads (log st) + List.length values)%nat /\
  exists ambiguities : ambiguities_dict,
    fst run
    = Raise (AmbiguousMatch "Ambiguous matches found for one or more input values"
               (PDict (map (fun kv => (KStr (fst kv), PList (map PInt (snd kv))))
                         ambiguities))) /\
    NoDup (map fst ambiguities) /\
    (forall v, In v (map fst ambiguities)
               <-> exists r, In (v, r) outs /\ is_ambiguous r = true) /\
    (forall pre v msg ids post,
       outs = (pre ++ (v, Raise (AmbiguousMatch msg (PList (map PInt ids)))) :: post)%list ->
       (forall r, In (v, r) post -> is_ambiguous r = false) ->
       adict_find String.eqb ambiguities v = Some ids).
Proof.
  intros outs run (v & r & Hin & Ha).
  subst run. rewrite bulk_run. cbv zeta. cbn [fst snd]. fold outs.
  split; [apply lookups_values |].
  split; [reflexivity |].
  split; [apply lookups_load_each |].
  exists (fold_left record_ambiguity outs []).
  split; [| split; [| split]].
  - destruct (fold_left record_ambiguity outs []) eqn:Hf; [| reflexivity].
    apply no_ambiguities_iff in Hf. rewrite forallb_forall in Hf.
    specialize (Hf _ Hin). simpl in Hf. rewrite Ha in Hf. discriminate.
  - apply ambiguities_nodup. constructor.
  - intros k. rewrite ambiguities_keys. simpl. tauto.
  - intros pre k msg ids post Houts Hlast.
    rewrite Houts, ambiguities_last by assumption.
    now rewrite normalize_details_of_ints.
Qed.

(** ** Configuration errors *)

Lemma resolve_run (w : world) (app_name field_display_name : string) (st : state)
    (a' : archer_state) :
  from_application w app_name (archer st) = (None, a') ->
  _resolve_field_id_by_display_name w app_name field_display_name st
  = (match first_display_name_match w (display_name_lower w field_display_name)
             (application_fields_json a') with
     | Some val => Ok val
     | None => Raise (field_not_found app_name field_display_name)
     end,
     {| archer := a'; log := (log st ++ [FromApplication app_name])%list |}).
Proof.
  intros Hload.
  unfold _resolve_field_id_by_display_name, bind, call_from_application, get_archer.
  rewrite Hload. simpl.
  now destruct (first_display_name_match _ _ _).
Qed.

(** C2 (as stated, refuted).  A field name that is not in the metadata,
    and a module id that is not a number: the single-value lookup raises,
    the bulk lookup returns a mapping with [None]. *)
Lemma C2_counterexample :
  let w := Scenarios.fake_world Scenarios.no_value_ids [] [] in
  fst (get_record_id_by_field w "App" "Owner" "X"
         (Scenarios.fake_state Scenarios.ticket_fields))
  = Raise (field_not_found "App" "Owner") /\
  fst (get_record_ids_by_field_bulk w "App" "Owner" ["X"]
         (Scenarios.fake_state Scenarios.ticket_fields))
  = Ok [("X", None)] /\
  fst (get_record_id_by_field w "App" "Ticket Number" "X" Scenarios.bad_module_state)
  = Raise (RuntimeError "Invalid application level id: abc") /\
  fst (get_record_ids_by_field_bulk w "App" "Ticket Number" ["X"] Scenarios.bad_module_state)
  = Ok [("X", None)].
Proof. repeat split. Qed.

(** C2 (amended).  In a single-value lookup a configuration error reaches
    the caller as an exception: [ValueError] when no key of the loaded
    metadata matches the field display name ignoring case (the two
    compared after [str.lower()]), [RuntimeError] when
    the field is found but the application's module id converts to no
    integer (as [None], a missing id, does).  The bulk lookup catches such
    an exception for the value at hand and records [None] for it: the only
    exception it raises is the aggregate [AmbiguousMatch], and when no
    lookup is ambiguous it returns the mapping, with [None] under every
    value whose lookup raised. *)
Theorem C2_configuration_errors_raise_in_single_lookup_only
    (w : world) (app_name field_display_name : string) :
  (forall field_value st a',
     from_application w app_name (archer st) = (None, a') ->
     let outcome := fst (get_record_id_by_field w app_name field_display_name field_value st) in
     let raw := application_level_id a' in
     ((forall key val, In (KStr key, val) (application_fields_json a') ->
                       name_matches w key field_display_name = false) ->
      outcome = Raise (field_not_found app_name field_display_name)) /\
     ((exists key val, In (KStr key, val) (application_fields_json a') /\
                       name_matches w key field_display_name = true) ->
      (forall e1 e2,
         py_int raw = Raise e1 ->
         py_int (PStr (py_str (render w) raw)) = Raise e2 ->
         outcome = Raise (RuntimeError ("Invalid application level id: "
                                        ++ py_str (render w) raw))) /\
      (raw = PNone ->
       outcome = Raise (RuntimeError "Invalid application level id: None")))) /\
  (forall values st,
     let outs := fst (lookups w app_name field_display_name values st) in
     let run := fst (get_record_ids_by_field_bulk w app_name field_display_name values st) in
     (forall e, run = Raise e ->
                exists msg ambiguities,
                  ambiguities <> [] /\
                  e = AmbiguousMatch msg (details_of_ambiguities ambiguities)) /\
     (forallb (fun out => negb (is_ambiguous (snd out))) outs = true ->
      exists results,
        run = Ok results /\
        forall pre v e post,
          outs = (pre ++ (v, Raise e) :: post)%list -> ~ In v (map fst post) ->
          adict_find String.eqb results v = Some None)).
Proof.
  split.
  - intros field_value st a' Hload outcome raw.
    assert (Hmod : forall val e1 e2,
               first_display_name_match w (display_name_lower w field_display_name)
                 (application_fields_json a') = Some val ->
               py_int raw = Raise e1 ->
               py_int (PStr (py_str (render w) raw)) = Raise e2 ->
               outcome = Raise (RuntimeError ("Invalid application level id: "
                                              ++ py_str (render w) raw))).
    { intros val e1 e2 Hf H1 H2. subst outcome.
      unfold get_record_id_by_field, bind at 1.
      rewrite (resolve_run _ _ _ _ _ Hload), Hf.
      unfold bind at 1, get_archer at 1. unfold bind at 1, lift at 1.
      cbn [archer]. fold raw.
      unfold module_id_of, rcatch. rewrite H1, H2. reflexivity. }
    split.
    + intros Hnone. apply first_display_name_match_none in Hnone.
      subst outcome. unfold get_record_id_by_field, bind at 1.
      rewrite (resolve_run _ _ _ _ _ Hload), Hnone. reflexivity.
    + intros (key & val & Hin & Hm).
      destruct (first_display_name_match w (display_name_lower w field_display_name)
                  (application_fields_json a')) as [v |] eqn:Hf.
      2:{ rewrite first_display_name_match_none in Hf.
          rewrite (Hf _ _ Hin) in Hm. discriminate. }
      split.
      * intros e1 e2. now apply (Hmod v).
      * intros Hraw.
        rewrite (Hmod v TypeError (ValueError EmptyString) eq_refl);
          rewrite Hraw; reflexivity.
  - intros values st outs run. subst run. rewrite bulk_run. cbv zeta. cbn [fst]. fold outs.
    split.
    + intros e He.
      destruct (fold_left record_ambiguity outs []) as [| kv rest] eqn:Hf; [discriminate |].
      injection He as <-. eexists _, (kv :: rest).
      split; [discriminate | reflexivity].
    + intros Hall. apply no_ambiguities_iff in Hall. rewrite Hall.
      eexists. split; [reflexivity |].
      intros pre v e post Houts Hlast.
      now rewrite Houts, results_last.
Qed.

(** ** The search token *)

(** A field is a values list when the metadata maps its id to a
    descriptor whose [Type] converts to 4. *)
Lemma is_values_list_true_iff (field_id : pyval) (st : state) :
  fst (_is_values_list field_id st) = Ok true
  <-> exists d,
        dict_get_val (application_fields_json (archer st)) field_id = Ok (PDict d) /\
        py_int (dict_get d (KStr "Type") (PInt (-1))) = Ok 4.
Proof.
  unfold _is_values_list, bind, get_archer, lift. simpl.
  destruct (dict_get_val _ field_id) as [info | e]; simpl.
  - destruct info as [| b | z | f | s | l | d]; simpl;
      try (split; [discriminate | intros (d' & [=] & _)]).
    destruct (py_int (dict_get d (KStr "Type") (PInt (-1)))) as [t | e] eqn:Ht; simpl.
    + split.
      * intros [= H4]. apply Z.eqb_eq in H4. subst t. now exists d.
      * intros (d' & [= <-] & Ht'). rewrite Ht in Ht'. injection Ht' as ->. reflexivity.
    + split; [discriminate |].
      intros (d' & [= <-] & Ht'). congruence.
  - split; [discriminate | intros (d' & [=] & _)].
Qed.

Lemma token_run (w : world) (field_display_name field_value : string) (field_id : pyval)
    (st : state) (is_vl : bool) :
  fst (_is_values_list field_id st) = Ok is_vl ->
  fst (_get_value_or_value_id w field_display_name field_id field_value st)
  = if is_vl
    then match get_value_id_by_field_name_and_value w field_display_name field_value
                 (archer st) with
         | Ok [] => Ok (PStr no_match_token)
         | Ok (id0 :: _) => Ok id0
         | Raise e => Raise e
         end
    else Ok (PStr field_value).
Proof.
  intros Hvl. unfold _get_value_or_value_id, bind.
  pose proof (is_values_list_state field_id st) as Hs.
  destruct (_is_values_list field_id st) as [r s]. simpl in Hs, Hvl. subst s r.
  destruct is_vl; [| reflexivity].
  unfold call_get_value_id.
  now destruct (get_value_id_by_field_name_and_value w _ _ _) as [[| id0 ids] | e].
Qed.

(** C7 (as stated, refuted).  [Status] is a values-list field and the
    primary endpoint is unsupported.  Whether values-list resolution
    returns nothing (the token is then the sentinel) or the id 999 (the
    token is then 999), the fallback query filters on the raw value [Open]
    and the lookup returns the record 222 the server matched. *)
Lemma C7_counterexample :
  let st := Scenarios.fake_state Scenarios.status_fields in
  let w0 := Scenarios.fallback_world Scenarios.no_value_ids in
  let w1 := Scenarios.fallback_world Scenarios.open_is_999 in
  let requests_made (w : world) :=
    [ FromApplication "App"; GetValueId "Status" "Open";
      Http (probe_request w 100);
      Http (directory_request w);
      Http (GET "https://fake/rsaarcher/contentapi/Endpoint?$filter=Status+eq+%27Open%27&$select=Endpoint_Id"
                (header w) 15) ] in
  fst (_is_values_list (PInt 20) st) = Ok true /\
  fst (_get_value_or_value_id w0 "Status" (PInt 20) "Open" st)
  = Ok (PStr "__CLINE_VALUES_LIST_NO_MATCH__") /\
  get_record_id_by_field w0 "App" "Status" "Open" st
  = (Ok (Some 222), {| archer := archer st; log := requests_made w0 |}) /\
  fst (_get_value_or_value_id w1 "Status" (PInt 20) "Open" st) = Ok (PInt 999) /\
  get_record_id_by_field w1 "App" "Status" "Open" st
  = (Ok (Some 222), {| archer := archer st; log := requests_made w1 |}).
Proof. repeat split. Qed.

(** C7 (amended).  The token computed for a values-list field is the
    first id returned by values-list resolution, and the fixed string
    [__CLINE_VALUES_LIST_NO_MATCH__] when it returns none; for any other
    field it is the raw value unchanged.  The primary structured search
    filters on that token.  The fallback filtered query does not use the
    token: it filters on the raw value the caller supplied. *)
Theorem C7_token_for_primary_raw_value_for_fallback (w : world) :
  (forall field_display_name field_id field_value st,
     let token := fst (_get_value_or_value_id w field_display_name field_id field_value st) in
     let resolved :=
       get_value_id_by_field_name_and_value w field_display_name field_value (archer st) in
     (fst (_is_values_list field_id st) = Ok true ->
      (forall id0 others, resolved = Ok (id0 :: others) -> token = Ok id0) /\
      (resolved = Ok [] -> token = Ok (PStr "__CLINE_VALUES_LIST_NO_MATCH__"))) /\
     (fst (_is_values_list field_id st) = Ok false -> token = Ok (PStr field_value))) /\
  (forall app_name field_display_name field_value st st1 st2 st3 field_id token module_id,
     _resolve_field_id_by_display_name w app_name field_display_name st = (Ok field_id, st1) ->
     module_id_of w (application_level_id (archer st1)) = Ok module_id ->
     _get_value_or_value_id w field_display_name field_id field_value st1 = (Ok token, st2) ->
     let final := snd (get_record_id_by_field w app_name field_display_name field_value st) in
     (_supports_rest_search w module_id st2 = (Ok true, st3) ->
      log final
      = (log st2 ++
         [ Http (probe_request w module_id);
           Http (POST (api_url_base w ++ "core/content/record/search")
                   (json_headers w)
                   (PDict [ (KStr "ModuleId", PInt module_id);
                            (KStr "Page", PDict [(KStr "Start", PInt 0); (KStr "Size", PInt 2)]);
                            (KStr "Filters",
                             PList [PDict [ (KStr "FieldId", field_id);
                                            (KStr "Operator", PStr "Equals");
                                            (KStr "Value", token) ]]);
                            (KStr "ReturnFields", PList [PStr "Id"]) ])
                   15) ])%list) /\
     (_supports_rest_search w module_id st2 = (Ok false, st3) ->
      forall endpoint st4,
        _get_grc_endpoint_url w app_name st3 = (Ok endpoint, st4) ->
        truthy endpoint = true ->
        log final
        = (log st2 ++
           [ Http (probe_request w module_id);
             Http (directory_request w);
             Http (GET (content_api_url_base w ++ py_str (render w) endpoint
                        ++ "?$filter="
                        ++ quote_plus (field_display_name ++ " eq '" ++ field_value ++ "'")
                        ++ "&$select=" ++ py_str (render w) endpoint ++ "_Id")
                     (header w) 15) ])%list)).
Proof.
  split.
  - intros field_display_name field_id field_value st token resolved.
    subst token resolved. split.
    + intros Hvl. rewrite (token_run _ _ _ _ _ _ Hvl). split.
      * now intros id0 others ->.
      * now intros ->.
    + intros Hvl. now rewrite (token_run _ _ _ _ _ _ Hvl).
  - intros app_name field_display_name field_value st st1 st2 st3 field_id token module_id
           Hres Hmod Htok final.
    split.
    + intros Hprobe.
      pose proof (rest_search_run w module_id field_id token 2 st3) as Hs.
      destruct (lookup_reaching_search w app_name field_display_name field_value
                  st st1 st2 st3 _ field_id token module_id true _ Hres Hmod Htok Hprobe
                  (or_introl (conj eq_refl Hs))) as (Hfinal & _).
      subst final. rewrite Hfinal.
      rewrite supports_rest_search_run in Hprobe. injection Hprobe as _ <-.
      cbn [record log]. now rewrite <- app_assoc.
    + intros Hprobe endpoint st4 Hep Ht.
      pose proof (contentapi_search_run w endpoint field_display_name field_value st4) as Hs.
      destruct (lookup_reaching_search w app_name field_display_name field_value
                  st st1 st2 st3 _ field_id token module_id false _ Hres Hmod Htok Hprobe
                  (or_intror (conj eq_refl (ex_intro _ endpoint (ex_intro _ st4
                     (conj Hep (conj Ht Hs))))))) as (Hfinal & _).
      subst final. rewrite Hfinal.
      rewrite supports_rest_search_run in Hprobe. injection Hprobe as _ <-.
      rewrite get_grc_endpoint_url_run in Hep. injection Hep as _ <-.
      cbn [record log]. now rewrite <- !app_assoc.
Qed.

(** * Further properties of the module *)

(** ** The values-list test *)

(** X1.  [_is_values_list] reads the metadata and changes nothing.  For a
    field id that can index a dictionary it never raises: it answers [True]
    exactly when the metadata maps the id to a descriptor whose [Type]
    converts to 4, hence [False] when the id has no descriptor and when
    the descriptor has no [Type].  For a list or a dictionary as field id
    the metadata lookup raises [TypeError]. *)
Theorem X1_is_values_list_answers_without_raising (field_id : pyval) (st : state) :
  let af := application_fields_json (archer st) in
  snd (_is_values_list field_id st) = st /\
  (hashable field_id = true ->
   exists b : bool,
     fst (_is_values_list field_id st) = Ok b /\
     (b = true <->
      exists d, dict_get_val af field_id = Ok (PDict d) /\
                py_int (dict_get d (KStr "Type") (PInt (-1))) = Ok 4)) /\
  (dict_get_val af field_id = Ok PNone -> fst (_is_values_list field_id st) = Ok false) /\
  (forall d, dict_get_val af field_id = Ok (PDict d) ->
             dict_mem d (KStr "Type") = false ->
             fst (_is_values_list field_id st) = Ok false) /\
  (hashable field_id = false -> fst (_is_values_list field_id st) = Raise TypeError).
Proof.
  intros af. split; [apply is_values_list_state |].
  split; [| split; [| split]].
  - intros Hh.
    assert (Hok : exists b, fst (_is_values_list field_id st) = Ok b).
    { unfold _is_values_list, bind, get_archer, lift. simpl. fold af.
      destruct (dict_get_val af field_id) as [info | e] eqn:E; simpl.
      - destruct info; simpl; try (eexists; reflexivity).
        match goal with
        | |- context [py_int ?v] => destruct (py_int v); simpl; eexists; reflexivity
        end.
      - exfalso. unfold dict_get_val, key_of in E.
        destruct field_id; simpl in E; discriminate. }
    destruct Hok as [b Hb]. exists b. split; [exact Hb |].
    pose proof (is_values_list_true_iff field_id st) as Hiff.
    rewrite Hb in Hiff. fold af in Hiff.
    split; [intros -> | intros H]; [now apply Hiff | apply Hiff in H; congruence].
  - intros Hnone. unfold _is_values_list, bind, get_archer, lift. simpl. fold af.
    now rewrite Hnone.
  - intros d Hd Hmem. unfold _is_values_list, bind, get_archer, lift. simpl. fold af.
    rewrite Hd. simpl.
    unfold dict_mem, adict_mem in Hmem. unfold dict_get.
    destruct (adict_find pykey_eqb d (KStr "Type")); [discriminate | reflexivity].
  - intros Hh. unfold _is_values_list, bind, get_archer, lift. simpl.
    destruct field_id; try discriminate; reflexivity.
Qed.

(** ** Failures of the collaborators *)

Lemma resolve_load_failure (w : world) (app_name field_display_name : string) (st : state)
    (e : exn) (a' : archer_state) :
  from_application w app_name (archer st) = (Some e, a') ->
  _resolve_field_id_by_display_name w app_name field_display_name st
  = (Raise e, {| archer := a'; log := (log st ++ [FromApplication app_name])%list |}).
Proof.
  intros Hload.
  unfold _resolve_field_id_by_display_name, bind, call_from_application.
  now rewrite Hload.
Qed.

(** X2.  A failure of a collaborator reaches the caller of the
    single-value lookup unchanged, and no request has been sent by then:
    when [from_application] raises, the lookup raises the same exception
    right after the load; when the field is a values list and values-list
    resolution raises, the lookup raises the same exception right after
    that call. *)
Theorem X2_collaborator_failures_propagate_unchanged
    (w : world) (app_name field_display_name field_value : string) (st : state) (e : exn) :
  (forall a',
     from_application w app_name (archer st) = (Some e, a') ->
     get_record_id_by_field w app_name field_display_name field_value st
     = (Raise e, {| archer := a'; log := (log st ++ [FromApplication app_name])%list |})) /\
  (forall field_id st1 module_id,
     _resolve_field_id_by_display_name w app_name field_display_name st = (Ok field_id, st1) ->
     module_id_of w (application_level_id (archer st1)) = Ok module_id ->
     fst (_is_values_list field_id st1) = Ok true ->
     get_value_id_by_field_name_and_value w field_display_name field_value (archer st1)
     = Raise e ->
     get_record_id_by_field w app_name field_display_name field_value st
     = (Raise e,
        {| archer := archer st1;
           log := (log st ++ [FromApplication app_name;
                              GetValueId field_display_name field_value])%list |})).
Proof.
  split.
  - intros a' Hload.
    unfold get_record_id_by_field, bind at 1.
    now rewrite (resolve_load_failure _ _ _ _ _ _ Hload).
  - intros field_id st1 module_id Hres Hmod Hvl Hraise.
    pose proof (resolve_log _ _ _ _ _ _ Hres) as Hl1.
    unfold get_record_id_by_field, bind at 1. rewrite Hres.
    unfold bind at 1, get_archer at 1. unfold bind at 1, lift at 1. rewrite Hmod.
    unfold bind at 1.
    unfold _get_value_or_value_id, bind at 1.
    pose proof (is_values_list_state field_id st1) as Hs.
    destruct (_is_values_list field_id st1) as [r s]. simpl in Hs, Hvl. subst s r.
    unfold bind at 1, call_get_value_id. rewrite Hraise.
    unfold record. cbn [archer log]. rewrite Hl1, <- app_assoc. reflexivity.
Qed.

(** ** Failures on the primary path *)

(** X3.  When the probe reports the primary endpoint as supported, the
    lookup cannot fail except with its own [AmbiguousMatch]: whatever the
    server does with the primary search, the lookup returns [None] or an
    id, or raises [AmbiguousMatch] carrying the two or more ids that the
    search returned. *)
Theorem X3_supported_probe_leaves_ambiguity_as_only_failure
    (w : world) (app_name field_display_name field_value : string)
    (st st1 st2 st3 : state) (field_id token : pyval) (module_id : Z) :
  _resolve_field_id_by_display_name w app_name field_display_name st = (Ok field_id, st1) ->
  module_id_of w (application_level_id (archer st1)) = Ok module_id ->
  _get_value_or_value_id w field_display_name field_id field_value st1 = (Ok token, st2) ->
  _supports_rest_search w module_id st2 = (Ok true, st3) ->
  let outcome := fst (get_record_id_by_field w app_name field_display_name field_value st) in
  (exists rid, outcome = Ok rid) \/
  (exists ids,
     fst (_rest_search_record_ids w module_id field_id token 2 st3) = Ok ids /\
     (2 <= List.length ids)%nat /\
     outcome = Raise (AmbiguousMatch
                        ("Multiple records found for value '" ++ field_value
                         ++ "' in field '" ++ field_display_name ++ "'")
                        (PList (map PInt ids)))).
Proof.
  intros Hres Hmod Htok Hprobe outcome.
  pose proof (rest_search_run w module_id field_id token 2 st3) as Hs.
  set (ids := match requests w (log st3) (search_request w module_id field_id token 2) with
              | Responded r => _
              | Failed _ => []
              end) in Hs.
  destruct (lookup_reaching_search w app_name field_display_name field_value
              st st1 st2 st3 _ field_id token module_id true ids Hres Hmod Htok Hprobe
              (or_introl (conj eq_refl Hs))) as (_ & H0 & H1 & H2).
  fold outcome in H0, H1, H2.
  destruct ids as [| a [| b rest]] eqn:Hids.
  - left. exists None. now apply H0.
  - left. exists (Some a). now apply H1.
  - right. exists (a :: b :: rest).
    split; [now rewrite Hs |].
    split; [simpl; lia |].
    apply H2. simpl. lia.
Qed.

(** ** When values-list resolution is called *)

(** X4.  Computing the search token calls values-list resolution exactly
    once, with the field's display name and the raw value, when the field
    is a values list, and not at all otherwise; the host's attributes are
    left as they were. *)
Theorem X4_values_list_resolution_called_for_values_lists_only
    (w : world) (field_display_name field_value : string) (field_id : pyval) (st : state) :
  let final := snd (_get_value_or_value_id w field_display_name field_id field_value st) in
  archer final = archer st /\
  (fst (_is_values_list field_id st) = Ok true ->
   log final = (log st ++ [GetValueId field_display_name field_value])%list) /\
  (fst (_is_values_list field_id st) <> Ok true -> log final = log st).
Proof.
  unfold _get_value_or_value_id, bind.
  pose proof (is_values_list_state field_id st) as Hs.
  destruct (_is_values_list field_id st) as [[[|] | e] s]; simpl in Hs; subst s; cbn [fst].
  - unfold call_get_value_id.
    destruct (get_value_id_by_field_name_and_value w _ _ _) as [[| id0 ids] | e];
      cbn [snd record archer log]; (split; [reflexivity |]);
      (split; [reflexivity | intros H; now contradiction H]).
  - cbn [snd ret]. split; [reflexivity |]. split; [discriminate | reflexivity].
  - cbn [snd]. split; [reflexivity |]. split; [discriminate | reflexivity].
Qed.

(** ** A failing primary search *)

(** X5.  When the probe reports the primary endpoint as supported, the
    lookup stands by the primary search: if that search is answered with a
    status of 400 or more, or the request raises, the lookup returns [None]
    and ends there, without turning to the fallback strategy. *)
Theorem X5_failed_primary_search_gives_none_without_fallback
    (w : world) (app_name field_display_name field_value : string)
    (st st1 st2 st3 : state) (field_id token : pyval) (module_id : Z) :
  _resolve_field_id_by_display_name w app_name field_display_name st = (Ok field_id, st1) ->
  module_id_of w (application_level_id (archer st1)) = Ok module_id ->
  _get_value_or_value_id w field_display_name field_id field_value st1 = (Ok token, st2) ->
  _supports_rest_search w module_id st2 = (Ok true, st3) ->
  (exists e, requests w (log st3) (search_request w module_id field_id token 2) = Failed e) \/
  (exists r, requests w (log st3) (search_request w module_id field_id token 2) = Responded r /\
             400 <= status_code r) ->
  get_record_id_by_field w app_name field_display_name field_value st
  = (Ok None,
     {| archer := archer st2;
        log := (log st2 ++ [ Http (probe_request w module_id);
                             Http (search_request w module_id field_id token 2) ])%list |}).
Proof.
  intros Hres Hmod Htok Hprobe Hfail.
  pose proof (rest_search_run w module_id field_id token 2 st3) as Hs.
  assert (Hempty : _rest_search_record_ids w module_id field_id token 2 st3
                   = (Ok [], record (Http (search_request w module_id field_id token 2)) st3)).
  { rewrite Hs. destruct Hfail as [[e ->] | (r & -> & Hst)]; [reflexivity |].
    apply Z.leb_le in Hst. now rewrite Hst. }
  destruct (lookup_reaching_search w app_name field_display_name field_value
              st st1 st2 st3 _ field_id token module_id true [] Hres Hmod Htok Hprobe
              (or_introl (conj eq_refl Hempty))) as (Hfinal & Hnone & _).
  rewrite (surjective_pairing (get_record_id_by_field _ _ _ _ _)).
  rewrite Hfinal, (Hnone eq_refl).
  rewrite supports_rest_search_run in Hprobe. injection Hprobe as _ <-.
  unfold record. cbn [archer log]. now rewrite <- app_assoc.
Qed.

(** ** The footprint of a lookup *)

Lemma count_http_app (l l' : list event) :
  count_http (l ++ l') = (count_http l + count_http l')%nat.
Proof. unfold count_http. now rewrite filter_app, length_app. Qed.

Lemma resolve_archer (w : world) (app_name field_display_name : string) (st st1 : state)
    (r : result pyval) :
  _resolve_field_id_by_display_name w app_name field_display_name st = (r, st1) ->
  archer st1 = snd (from_application w app_name (archer st)).
Proof.
  unfold _resolve_field_id_by_display_name, bind, call_from_application, get_archer.
  destruct (from_application w app_name (archer st)) as [[e |] a']; simpl.
  - now intros [= _ <-].
  - destruct (first_display_name_match _ _); now intros [= _ <-].
Qed.

Lemma token_archer (w : world) (field_display_name field_value : string) (field_id : pyval)
    (st1 st2 : state) (r : result pyval) :
  _get_value_or_value_id w field_display_name field_id field_value st1 = (r, st2) ->
  archer st2 = archer st1.
Proof.
  unfold _get_value_or_value_id, bind.
  pose proof (is_values_list_state field_id st1) as Hs.
  destruct (_is_values_list field_id st1) as [[[|] | e] s]; simpl in Hs; subst s.
  - unfold call_get_value_id.
    destruct (get_value_id_by_field_name_and_value w _ _ _) as [[| id0 ids] | e];
      now intros [= _ <-].
  - now intros [= _ <-].
  - now intros [= _ <-].
Qed.

Lemma lookup_footprint (w : world) (app_name field_display_name field_value : string)
    (st : state) :
  let final := snd (get_record_id_by_field w app_name field_display_name field_value st) in
  archer final = snd (from_application w app_name (archer st)) /\
  (count_http (log st) <= count_http (log final) <= count_http (log st) + 3)%nat.
Proof.
  destruct (get_record_id_by_field w app_name field_display_name field_value st)
    as [r final] eqn:Hrun.
  cbn [snd].
  unfold get_record_id_by_field in Hrun. unfold bind at 1 in Hrun.
  destruct (_resolve_field_id_by_display_name w app_name field_display_name st)
    as [[field_id | e0] st1] eqn:Hres;
    pose proof (resolve_log _ _ _ _ _ _ Hres) as Hl1;
    pose proof (resolve_archer _ _ _ _ _ _ Hres) as Ha1.
  2:{ injection Hrun as _ <-. split; [exact Ha1 |].
      rewrite Hl1, count_http_app. cbn. lia. }
  assert (H1 : count_http (log st1) = count_http (log st)).
  { rewrite Hl1, count_http_app. cbn. lia. }
  unfold bind at 1, get_archer at 1 in Hrun. unfold bind at 1, lift at 1 in Hrun.
  destruct (module_id_of w (application_level_id (archer st1))) as [module_id | e0].
  2:{ injection Hrun as _ <-. split; [exact Ha1 | lia]. }
  unfold bind at 1 in Hrun.
  destruct (_get_value_or_value_id w field_display_name field_id field_value st1)
    as [[token | e0] st2] eqn:Htok;
    pose proof (token_log _ _ _ _ _ _ _ Htok) as Hl2;
    pose proof (token_archer _ _ _ _ _ _ _ Htok) as Ha2;
    assert (H2 : count_http (log st2) = count_http (log st))
      by (destruct Hl2 as [-> | ->]; [exact H1 | rewrite count_http_app, H1; cbn; lia]).
  2:{ injection Hrun as _ <-. split; [congruence | lia]. }
  unfold bind at 1 in Hrun. rewrite supports_rest_search_run in Hrun.
  destruct (match requests w (log st2) (probe_request w module_id) with
            | Responded r => negb ((status_code r =? 404) || (status_code r =? 405))
            | Failed _ => false
            end).
  - unfold bind in Hrun. rewrite rest_search_run in Hrun.
    unfold lift in Hrun. injection Hrun as _ <-.
    cbn [record archer log]. split; [congruence |].
    rewrite !count_http_app, H2. cbn. lia.
  - unfold bind at 1 in Hrun. rewrite get_grc_endpoint_url_run in Hrun.
    destruct (negb (truthy _)).
    + injection Hrun as _ <-.
      cbn [record archer log]. split; [congruence |].
      rewrite !count_http_app, H2. cbn. lia.
    + unfold bind in Hrun. rewrite contentapi_search_run in Hrun.
      unfold lift in Hrun. injection Hrun as _ <-.
      cbn [record archer log]. split; [congruence |].
      rewrite !count_http_app, H2. cbn. lia.
Qed.

(** X6.  A single-value lookup sends at most three requests (the probe,
    then either the primary search or the directory listing and the
    fallback query), and a bulk lookup of [n] values at most [3 * n],
    however the servers answer. *)
Theorem X6_lookups_send_at_most_three_requests_per_value
    (w : world) (app_name field_display_name : string) (st : state) :
  (forall field_value,
     (count_http (log (snd (get_record_id_by_field w app_name field_display_name
                              field_value st)))
      <= count_http (log st) + 3)%nat) /\
  (forall values,
     (count_http (log (snd (get_record_ids_by_field_bulk w app_name field_display_name
                              values st)))
      <= count_http (log st) + 3 * List.length values)%nat).
Proof.
  split.
  - intros field_value. apply lookup_footprint.
  - intros values. rewrite bulk_run. cbv zeta. cbn [snd].
    revert st. induction values as [| v rest IH]; intros st.
    + simpl. lia.
    + cbn [lookups].
      pose proof (lookup_footprint w app_name field_display_name v st) as [_ H1].
      destruct (get_record_id_by_field w app_name field_display_name v st) as [r st'].
      specialize (IH st').
      destruct (lookups w app_name field_display_name rest st') as [outs st''].
      cbn [snd] in *. cbn [List.length]. lia.
Qed.

(** X7.  The module never writes the host's attributes itself: after a
    single-value lookup, whatever its outcome, they are exactly what
    [from_application] left when it loaded the application. *)
Theorem X7_lookup_leaves_host_as_loaded
    (w : world) (app_name field_display_name field_value : string) (st : state) :
  archer (snd (get_record_id_by_field w app_name field_display_name field_value st))
  = snd (from_application w app_name (archer st)).
Proof. apply lookup_footprint. Qed.

(** ** Response normalisation: malformed and empty bodies *)

Lemma rest_list_loop_non_object (items : list pyval) (bad : pyval) (ids : list Z) :
  In bad items -> is_dict bad = false ->
  exists e, rest_list_loop items ids = Raise e.
Proof.
  revert ids. induction items as [| item rest IH]; intros ids Hin Hbad; [destruct Hin |].
  cbn [rest_list_loop].
  destruct (requested_object_id item) as [rid | e] eqn:Hrid; cbn [rbind].
  - destruct Hin as [-> | Hin].
    + destruct bad; try discriminate Hbad; discriminate Hrid.
    + destruct (append_if_truthy rid ids) as [ids' | e]; cbn [rbind].
      * now apply IH.
      * now exists e.
  - now exists e.
Qed.

(** X8.  The primary strategy's parsing of a top-level array is all or
    nothing: if any element of the array is not an object, the search
    returns no ids at all, even when other elements carry valid ids and
    the status is a success. *)
Theorem X8_one_non_object_item_voids_the_primary_result
    (w : world) (module_id : Z) (field_id value : pyval) (limit : Z) (st : state)
    (r : response) (items : list pyval) (bad : pyval) :
  requests w (log st) (search_request w module_id field_id value limit) = Responded r ->
  status_code r < 400 ->
  json r = Some (PList items) ->
  In bad items ->
  is_dict bad = false ->
  fst (_rest_search_record_ids w module_id field_id value limit st) = Ok [].
Proof.
  intros Hreq Hst Hj Hin Hbad.
  rewrite rest_search_run, Hreq. cbn [fst].
  apply Z.leb_gt in Hst. rewrite Hst.
  unfold resp_json. rewrite Hj. cbn [rbind rest_ids_of].
  destruct (rest_list_loop_non_object items bad [] Hin Hbad) as [e ->].
  reflexivity.
Qed.

Lemma rest_value_loop_skips (pre post : list pyval) (bad : pyval) (ids : list Z) :
  is_dict bad = false ->
  rest_value_loop (pre ++ bad :: post) ids = rest_value_loop (pre ++ post) ids.
Proof.
  intros Hbad. revert ids. induction pre as [| item pre IH]; intros ids.
  - cbn [app rest_value_loop].
    destruct bad; try discriminate Hbad; reflexivity.
  - cbn [app rest_value_loop].
    destruct (match item with
              | PDict d =>
                  if dict_mem d (KStr "RequestedObject")
                  then py_get (dict_get d (KStr "RequestedObject") PNone) "Id" PNone
                  else first_id_key d
              | _ => Ok PNone
              end) as [rid | e]; cbn [rbind]; [| reflexivity].
    destruct (append_if_truthy rid ids) as [ids' | e]; cbn [rbind]; [apply IH | reflexivity].
Qed.

Lemma contentapi_loop_skips (select_field : string) (pre post : list pyval) (bad : pyval)
    (ids : list Z) :
  is_dict bad = false ->
  contentapi_loop select_field (pre ++ bad :: post) ids
  = contentapi_loop select_field (pre ++ post) ids.
Proof.
  intros Hbad. revert ids. induction pre as [| item pre IH]; intros ids.
  - cbn [app contentapi_loop].
    destruct bad; try discriminate Hbad; reflexivity.
  - cbn [app contentapi_loop].
    destruct (match item with
              | PDict d =>
                  match dict_get d (KStr select_field) PNone with
                  | PNone => first_id_key d
                  | rid => Ok rid
                  end
              | _ => Ok PNone
              end) as [rid | e]; cbn [rbind]; [| reflexivity].
    destruct (match rid with
              | PNone => Ok ids
              | _ => (let* n := py_int rid in Ok (ids ++ [n])%list)%result
              end) as [ids' | e]; cbn [rbind]; [apply IH | reflexivity].
Qed.

(** X9.  Inside a [value] array both strategies skip an element that is
    not an object: dropping it from the body changes nothing in the ids
    returned (nor in whether the parsing raises). *)
Theorem X9_non_object_items_of_a_value_array_are_skipped
    (pre post : list pyval) (bad : pyval) :
  is_dict bad = false ->
  rest_ids_of (value_listing (pre ++ bad :: post)) = rest_ids_of (value_listing (pre ++ post)) /\
  forall select_field,
    contentapi_ids_of select_field (value_listing (pre ++ bad :: post))
    = contentapi_ids_of select_field (value_listing (pre ++ post)).
Proof.
  intros Hbad. split.
  - unfold rest_ids_of, value_listing. cbn [adict_find pykey_eqb String.eqb].
    simpl. now apply rest_value_loop_skips.
  - intros select_field. unfold contentapi_ids_of, value_listing. simpl.
    now apply contentapi_loop_skips.
Qed.

(** X10.  An empty body is no result: when the server answers with a
    success status and a body that decodes to a falsy value ([None],
    [False], 0, an empty string, array or object), both strategies return
    the empty list. *)
Theorem X10_falsy_body_gives_no_ids (w : world) (st : state) (r : response) (data : pyval) :
  status_code r < 400 ->
  json r = Some data ->
  truthy data = false ->
  (forall module_id field_id value limit,
     requests w (log st) (search_request w module_id field_id value limit) = Responded r ->
     fst (_rest_search_record_ids w module_id field_id value limit st) = Ok []) /\
  (forall endpoint_url field_display_name field_value,
     requests w (log st) (contentapi_request w endpoint_url field_display_name field_value)
     = Responded r ->
     fst (_contentapi_search_record_ids w endpoint_url field_display_name field_value st)
     = Ok []).
Proof.
  intros Hst Hj Hfalsy. apply Z.leb_gt in Hst.
  split.
  - intros module_id field_id value limit Hreq.
    rewrite rest_search_run, Hreq. cbn [fst]. rewrite Hst.
    unfold resp_json. rewrite Hj. cbn [rbind].
    destruct data as [| b | z | f | s | l | d]; try reflexivity.
    + destruct l; [reflexivity | discriminate].
    + destruct d; [reflexivity | discriminate].
  - intros endpoint_url field_display_name field_value Hreq.
    rewrite contentapi_search_run, Hreq. cbn [fst]. rewrite Hst.
    unfold resp_json. rewrite Hj. cbn [rbind].
    destruct data as [| b | z | f | s | l | d]; try reflexivity.
    destruct d; [reflexivity | discriminate].
Qed.

(** ** Identifier keys *)

Lemma eq_ignore_case_lower (k k' : string) :
  eq_ignore_case k k' = true -> lower k = lower k'.
Proof. rewrite <- lower_eqb_ignore_case. apply String.eqb_eq. Qed.

(** X11.  The search for an identifier key in an item ([id], or any key
    ending in [_id]) does not depend on the case of the keys: two objects
    with the same values under keys equal up to case yield the same
    identifier. *)
Theorem X11_identifier_key_ignores_case (d d' : dict) :
  Forall2 same_entry_up_to_case d d' ->
  first_id_key d = first_id_key d'.
Proof.
  induction 1 as [| [k0 v] [k0' v'] d d' (Hv & k & k' & Hk & Hk' & Hci) _ IH];
    [reflexivity |].
  simpl in Hv, Hk, Hk'. subst k0 k0' v'.
  cbn [first_id_key].
  rewrite (eq_ignore_case_lower _ _ Hci), IH. reflexivity.
Qed.

(** ** The details of an ambiguity *)

Lemma flatten_details_of_ambiguities (ambiguities : ambiguities_dict) (flat : list Z) :
  flatten_details
    (map (fun kv => (KStr (fst kv), PList (map PInt (snd kv)))) ambiguities) flat
  = (flat ++ List.concat (map snd ambiguities))%list.
Proof.
  revert flat. induction ambiguities as [| [k l] rest IH]; intros flat; simpl.
  - now rewrite app_nil_r.
  - rewrite coerce_ints_of_ints, IH, <- app_assoc. reflexivity.
Qed.

(** X12.  The handler of [AmbiguousMatch] in the bulk loop accepts every
    shape of [details]: absent details give the empty list, and a mapping
    from values to id lists, as the bulk lookup itself raises, is flattened
    into the ids of all its entries in order. *)
Theorem X12_details_are_flattened (ambiguities : ambiguities_dict) :
  normalize_details PNone = [] /\
  normalize_details (details_of_ambiguities ambiguities) = List.concat (map snd ambiguities).
Proof.
  split; [reflexivity |].
  unfold normalize_details, details_of_ambiguities.
  destruct ambiguities as [| kv rest]; [reflexivity |].
  cbn [truthy map].
  exact (flatten_details_of_ambiguities (kv :: rest) []).
Qed.

(** ** The order of the result mapping *)

Lemma keys_after_set (d : results_dict) (k : string) (v : option Z) :
  map fst (adict_set String.eqb d k v)
  = if existsb (fun x => String.eqb x k) (map fst d) then map fst d
    else (map fst d ++ [k])%list.
Proof.
  induction d as [| [k0 v0] d IH]; cbn [adict_set map fst existsb app].
  - reflexivity.
  - destruct (String.eqb k0 k) eqn:E; cbn [map fst orb].
    + reflexivity.
    + rewrite IH. now destruct (existsb _ (map fst d)).
Qed.

Lemma filter_absent_keys (keys l : list string) (v : string) :
  existsb (fun x => String.eqb x v) keys = true ->
  filter (fun x => negb (existsb (fun y => String.eqb y x) keys))
         (filter (fun x => negb (String.eqb x v)) l)
  = filter (fun x => negb (existsb (fun y => String.eqb y x) keys)) l.
Proof.
  intros Hin. induction l as [| x l IH]; [reflexivity |].
  cbn [filter].
  destruct (String.eqb x v) eqn:E; cbn [negb filter].
  - apply String.eqb_eq in E. subst x. rewrite Hin. cbn [negb]. exact IH.
  - now rewrite IH.
Qed.

Lemma filter_new_key (keys l : list string) (v : string) :
  filter (fun x => negb (existsb (fun y => String.eqb y x) (keys ++ [v])%list)) l
  = filter (fun x => negb (existsb (fun y => String.eqb y x) keys))
           (filter (fun x => negb (String.eqb x v)) l).
Proof.
  induction l as [| x l IH]; [reflexivity |].
  cbn [filter]. rewrite existsb_app. cbn [existsb]. rewrite orb_false_r.
  rewrite (String.eqb_sym v x).
  destruct (String.eqb x v); cbn [negb filter].
  - rewrite orb_true_r. cbn [negb]. exact IH.
  - rewrite orb_false_r.
    destruct (existsb (fun y => String.eqb y x) keys); cbn [negb]; now rewrite IH.
Qed.

Lemma results_key_order (outs : list (string * result (option Z))) (results : results_dict) :
  map fst (fold_left record_result outs results)
  = (map fst results
     ++ filter (fun x => negb (existsb (fun y => String.eqb y x) (map fst results)))
          (first_occurrences (map fst outs)))%list.
Proof.
  revert results. induction outs as [| [v r] outs IH]; intros results.
  - simpl. now rewrite app_nil_r.
  - cbn [fold_left map fst first_occurrences filter].
    rewrite IH. unfold record_result at 1 2. cbn [fst snd].
    rewrite keys_after_set.
    destruct (existsb (fun x => String.eqb x v) (map fst results)) eqn:Hin; cbn [negb].
    + now rewrite filter_absent_keys.
    + rewrite filter_new_key, <- app_assoc. reflexivity.
Qed.

(** X13.  The mapping a bulk lookup returns lists the distinct input
    values in the order of their first occurrence. *)
Theorem X13_bulk_mapping_keeps_input_order
    (w : world) (app_name field_display_name : string) (values : list string)
    (st : state) (results : results_dict) :
  fst (get_record_ids_by_field_bulk w app_name field_display_name values st) = Ok results ->
  map fst results = first_occurrences values.
Proof.
  intros Hok. rewrite bulk_run in Hok. cbv zeta in Hok. cbn [fst] in Hok.
  destruct (fold_left record_ambiguity _ []); [| discriminate].
  injection Hok as <-.
  rewrite results_key_order, lookups_values. cbn [map app existsb negb].
  induction (first_occurrences values) as [| x l IH]; [reflexivity |].
  cbn [filter]. now rewrite IH.
Qed.

(** ** Bulk and single-value lookup *)

(** X14.  A bulk lookup of one value is the single-value lookup with its
    failures folded in: an id or [None] comes back under the value, an
    [AmbiguousMatch] becomes the aggregate [AmbiguousMatch] with the
    normalised ids under the value, and any other exception becomes
    [None]; the state left is that of the single-value lookup. *)
Theorem X14_bulk_of_one_value
    (w : world) (app_name field_display_name v : string) (st : state) :
  get_record_ids_by_field_bulk w app_name field_display_name [v] st
  = (match fst (get_record_id_by_field w app_name field_display_name v st) with
     | Ok rid => Ok [(v, rid)]
     | Raise (AmbiguousMatch _ a_details) =>
         Raise (AmbiguousMatch "Ambiguous matches found for one or more input values"
                  (PDict [(KStr v, PList (map PInt (normalize_details a_details)))]))
     | Raise _ => Ok [(v, None)]
     end,
     snd (get_record_id_by_field w app_name field_display_name v st)).
Proof.
  rewrite bulk_run. cbv zeta. cbn [lookups].
  destruct (get_record_id_by_field w app_name field_display_name v st) as [[rid | e] st'];
    cbn [fst snd fold_left]; [reflexivity |].
  destruct e; reflexivity.
Qed.

(** ** The module id *)

(** X15.  For a module id that is [None], a boolean, an integer or a
    string, the second conversion attempt ([int(str(raw))]) never changes
    the outcome: the id is accepted exactly when [int(raw)] accepts it, with
    the same value, and is rejected otherwise with the [RuntimeError] that
    names it. *)
Theorem X15_module_id_accepted_iff_int_accepts (w : world) (raw : pyval) :
  plain_id raw = true ->
  module_id_of w raw
  = match py_int raw with
    | Ok n => Ok n
    | Raise _ =>
        Raise (RuntimeError ("Invalid application level id: " ++ py_str (render w) raw))
    end.
Proof.
  intros Hplain. unfold module_id_of, rcatch.
  destruct raw as [| b | z | f | s | l | d]; try discriminate Hplain; try reflexivity.
  cbn [py_str py_int].
  now destruct (parse_int s).
Qed.

(** ** The URL of the fallback query *)

Lemma hex_digit_unreserved (k : nat) : (k < 16)%nat -> is_unreserved (hex_digit k) = true.
Proof.
  intros Hk.
  do 16 (destruct k as [| k]; [reflexivity |]). lia.
Qed.

Lemma quote_plus_safe (s : string) :
  forallb query_safe (list_ascii_of_string (quote_plus s)) = true.
Proof.
  induction s as [| c s IH]; [reflexivity |].
  cbn [quote_plus].
  destruct (is_unreserved c) eqn:Hu.
  - cbn [list_ascii_of_string forallb]. unfold query_safe at 1. now rewrite Hu, IH.
  - destruct (Ascii.eqb c " ").
    + cbn [list_ascii_of_string forallb]. now rewrite IH.
    + cbn [list_ascii_of_string forallb]. rewrite IH.
      pose proof (nat_ascii_bounded c) as Hb.
      unfold query_safe at 2 3.
      rewrite (hex_digit_unreserved (nat_of_ascii c / 16)),
              (hex_digit_unreserved (nat_of_ascii c mod 16)).
      * reflexivity.
      * apply Nat.mod_upper_bound. lia.
      * apply Nat.Div0.div_lt_upper_bound. lia.
Qed.

(** X16.  In the URL of the fallback query the filter expression is
    percent-encoded: whatever the field name and the value, the encoded
    filter consists of letters, digits, [_ . - ~ + %] only, so it holds no
    space, quote, [&], [=], [#] or [?]. *)
Theorem X16_filter_is_percent_encoded (field_display_name field_value : string) :
  forallb query_safe
    (list_ascii_of_string (quote_plus (filter_expr field_display_name field_value)))
  = true.
Proof. apply quote_plus_safe. Qed.

(** ** The headers of the requests *)

Lemma dict_get_set (d : dict) (k k' : pykey) (v default : pyval) :
  dict_get (dict_set d k v) k' default
  = if pykey_eqb k k' then v else dict_get d k' default.
Proof.
  unfold dict_get, dict_set.
  induction d as [| [k0 v0] d IH]; cbn [adict_set adict_find].
  - now destruct (pykey_eqb k k').
  - destruct (pykey_eqb k0 k) eqn:E; cbn [adict_find].
    + apply pykey_eqb_eq in E. subst k0.
      now destruct (pykey_eqb k k').
    + destruct (pykey_eqb k0 k') eqn:E'; [| exact IH].
      apply pykey_eqb_eq in E'. subst k'.
      destruct (pykey_eqb k k0) eqn:E2; [| reflexivity].
      apply pykey_eqb_eq in E2. subst k0.
      rewrite pykey_eqb_refl in E. discriminate.
Qed.

(** X17.  The probe and the primary search are sent with every header of
    the host's session (such as [Authorization]) unchanged, plus
    [Content-type: application/json]; the host's own header dictionary,
    which the GET requests use, is not modified. *)
Theorem X17_post_headers_extend_the_session_headers
    (w : world) (module_id : Z) (field_id value : pyval) (limit : Z) :
  exists headers url body body' timeout timeout',
    probe_request w module_id = POST url headers body timeout /\
    search_request w module_id field_id value limit = POST url headers body' timeout' /\
    dict_get headers (KStr "Content-type") PNone = PStr "application/json" /\
    (forall k default, k <> KStr "Content-type" ->
                       dict_get headers k default = dict_get (header w) k default) /\
    directory_request w = GET (content_api_url_base w) (header w) 15.
Proof.
  eexists _, _, _, _, _, _.
  split; [reflexivity |]. split; [reflexivity |].
  split; [| split; [| reflexivity]].
  - unfold json_headers. rewrite dict_get_set. now rewrite pykey_eqb_refl.
  - intros k default Hk. unfold json_headers. rewrite dict_get_set.
    destruct (pykey_eqb (KStr "Content-type") k) eqn:E; [| reflexivity].
    apply pykey_eqb_eq in E. congruence.
Qed.

(** ** Endpoint discovery on a malformed listing *)

Lemma endpoint_loop_non_object (app_name : string) (pre post candidates : list pyval)
    (bad : pyval) :
  forallb entry_ok pre = true ->
  forallb (fun ep => negb (String.eqb (name_of ep) app_name)) pre = true ->
  is_dict bad = false ->
  endpoint_loop app_name (pre ++ bad :: post) candidates = Raise AttributeError.
Proof.
  intros Hok Hno Hbad. revert candidates.
  induction pre as [| ep pre IH]; intros candidates.
  - cbn [app endpoint_loop].
    destruct bad; try discriminate Hbad; reflexivity.
  - cbn [forallb] in Hok, Hno.
    apply andb_true_iff in Hok as [Hep Hok].
    apply andb_true_iff in Hno as [Hne Hno].
    cbn [app]. rewrite (entry_step _ _ _ _ Hep).
    apply negb_true_iff in Hne. rewrite Hne.
    destruct (contains app_name (name_of ep)); now apply IH.
Qed.

(** X18.  Endpoint discovery gives up on the whole listing at the first
    entry that is not an object: if such an entry comes before any entry
    named exactly like the application, discovery returns [None], whatever
    follows it and whatever candidates came before it. *)
Theorem X18_non_object_entry_hides_the_application
    (w : world) (app_name : string) (st : state) (r : response) (d : dict)
    (pre post : list pyval) (bad : pyval) :
  requests w (log st) (directory_request w) = Responded r ->
  json r = Some (PDict d) ->
  dict_get d (KStr "value") (PList []) = PList (pre ++ bad :: post) ->
  forallb entry_ok pre = true ->
  forallb (fun ep => negb (String.eqb (name_of ep) app_name)) pre = true ->
  is_dict bad = false ->
  fst (_get_grc_endpoint_url w app_name st) = Ok PNone.
Proof.
  intros Hreq Hj Hv Hok Hno Hbad.
  rewrite get_grc_endpoint_url_run, Hreq. cbn [fst].
  unfold resp_json. rewrite Hj. cbn [rbind].
  unfold endpoint_of_directory. cbn [py_get rbind]. rewrite Hv. cbn [py_iter rbind].
  now rewrite (endpoint_loop_non_object _ _ _ _ _ Hok Hno Hbad).
Qed.

(** ** No more ids than records *)

Lemma append_if_truthy_length (rid : pyval) (ids ids' : list Z) :
  append_if_truthy rid ids = Ok ids' ->
  (List.length ids' <= S (List.length ids))%nat.
Proof.
  unfold append_if_truthy.
  destruct (truthy rid).
  - destruct (py_int rid) as [n | e]; cbn [rbind]; [| discriminate].
    intros [= <-]. rewrite length_app. cbn. lia.
  - intros [= <-]. lia.
Qed.

Lemma rest_list_loop_length (items : list pyval) (ids out : list Z) :
  rest_list_loop items ids = Ok out ->
  (List.length out <= List.length ids + List.length items)%nat.
Proof.
  revert ids. induction items as [| item rest IH]; intros ids; cbn [rest_list_loop].
  - intros [= <-]. cbn. lia.
  - destruct (requested_object_id item) as [rid | e]; cbn [rbind]; [| discriminate].
    destruct (append_if_truthy rid ids) as [ids' | e] eqn:Ha; cbn [rbind]; [| discriminate].
    intros H. apply IH in H. apply append_if_truthy_length in Ha. cbn [List.length]. lia.
Qed.

Lemma rest_value_loop_length (items : list pyval) (ids out : list Z) :
  rest_value_loop items ids = Ok out ->
  (List.length out <= List.length ids + List.length items)%nat.
Proof.
  revert ids. induction items as [| item rest IH]; intros ids; cbn [rest_value_loop].
  - intros [= <-]. cbn. lia.
  - destruct (match item with
              | PDict d =>
                  if dict_mem d (KStr "RequestedObject")
                  then py_get (dict_get d (KStr "RequestedObject") PNone) "Id" PNone
                  else first_id_key d
              | _ => Ok PNone
              end) as [rid | e]; cbn [rbind]; [| discriminate].
    destruct (append_if_truthy rid ids) as [ids' | e] eqn:Ha; cbn [rbind]; [| discriminate].
    intros H. apply IH in H. apply append_if_truthy_length in Ha. cbn [List.length]. lia.
Qed.

Lemma contentapi_loop_length (select_field : string) (items : list pyval) (ids out : list Z) :
  contentapi_loop select_field items ids = Ok out ->
  (List.length out <= List.length ids + List.length items)%nat.
Proof.
  revert ids. induction items as [| item rest IH]; intros ids; cbn [contentapi_loop].
  - intros [= <-]. cbn. lia.
  - destruct (match item with
              | PDict d =>
                  match dict_get d (KStr select_field) PNone with
                  | PNone => first_id_key d
                  | rid => Ok rid
                  end
              | _ => Ok PNone
              end) as [rid | e]; cbn [rbind]; [| discriminate].
    assert (Hstep : forall ids',
               match rid with
               | PNone => Ok ids
               | _ => (let* n := py_int rid in Ok (ids ++ [n])%list)%result
               end = Ok ids' ->
               (List.length ids' <= S (List.length ids))%nat).
    { intros ids'.
      destruct rid; try (intros [= <-]; lia);
        match goal with
        | |- context [py_int ?v] =>
            destruct (py_int v); cbn [rbind]; [| discriminate];
            intros [= <-]; rewrite length_app; cbn; lia
        end. }
    destruct (match rid with
              | PNone => Ok ids
              | _ => (let* n := py_int rid in Ok (ids ++ [n])%list)%result
              end) as [ids' | e]; cbn [rbind]; [| discriminate].
    intros H. apply IH in H. specialize (Hstep ids' eq_refl). cbn [List.length]. lia.
Qed.

(** X19.  Neither strategy returns more ids than the body has records:
    at most one id per element of the array parsed, and at most one for a
    body that is a single object. *)
Theorem X19_at_most_one_id_per_record :
  (forall data ids,
     rest_ids_of data = Ok ids -> (List.length ids <= records_in data)%nat) /\
  (forall select_field d items ids,
     dict_get d (KStr "value") (PList []) = PList items ->
     contentapi_ids_of select_field (PDict d) = Ok ids ->
     (List.length ids <= List.length items)%nat).
Proof.
  split.
  - intros data ids. unfold rest_ids_of, records_in.
    destruct data as [| b | z | f | s | l | d]; try (intros [= <-]; cbn; lia).
    + intros H. now apply rest_list_loop_length in H.
    + destruct (adict_find pykey_eqb d (KStr "value")) as [[| b | z | f | s | l | d'] |];
        try (destruct (requested_object_id (PDict d)) as [rid | e]; cbn [rbind];
             [| discriminate];
             intros H; now apply append_if_truthy_length in H).
      intros H. now apply rest_value_loop_length in H.
  - intros select_field d items ids Hv. unfold contentapi_ids_of.
    cbn [py_get rbind]. rewrite Hv. cbn [py_iter rbind].
    intros H. now apply contentapi_loop_length in H.
Qed.

(** ** Instances on the scenarios *)

Module Instances.
Import Scenarios.

Lemma C3_witness :
  fst (get_record_id_by_field
         (fake_world no_value_ids
            [probe_ok; mock_response 200 (PList [nested_id 1; nested_id 2])] [])
         "App" "Ticket Number" "DUP" (fake_state ticket_fields))
  = Raise (AmbiguousMatch
             "Multiple records found for value 'DUP' in field 'Ticket Number'"
             (PList [PInt 1; PInt 2])).
Proof.
  set (w := fake_world no_value_ids
              [probe_ok; mock_response 200 (PList [nested_id 1; nested_id 2])] []).
  set (st := fake_state ticket_fields).
  set (st1 := snd (_resolve_field_id_by_display_name w "App" "Ticket Number" st)).
  set (st3 := snd (_supports_rest_search w 100 st1)).
  set (st4 := snd (_rest_search_record_ids w 100 (PInt 10) (PStr "DUP") 2 st3)).
  refine (proj2 (proj2 (proj2
            (C3_lookup_classifies_by_count w "App" "Ticket Number" "DUP"
               st st1 st1 st3 st4 (PInt 10) (PStr "DUP") 100 true [1; 2]
               eq_refl eq_refl eq_refl eq_refl (or_introl (conj eq_refl eq_refl))))) _).
  simpl. lia.
Defined.

Lemma C1_witness :
  let w := one_then_two 555 in
  let st := fake_state ticket_fields in
  (exists v r, In (v, r) (fst (lookups w "App" "Ticket Number" ["A-1"; "B-2"] st)) /\
               is_ambiguous r = true) /\
  count_loads (log (snd (get_record_ids_by_field_bulk w "App" "Ticket Number"
                           ["A-1"; "B-2"] st))) = 2%nat.
Proof.
  cbv zeta.
  assert (H : exists v r,
             In (v, r) (fst (lookups (one_then_two 555) "App" "Ticket Number"
                               ["A-1"; "B-2"] (fake_state ticket_fields))) /\
             is_ambiguous r = true).
  { exists "B-2", (Raise (multiple_records "Ticket Number" "B-2" [1; 2])).
    split; [right; left; reflexivity | reflexivity]. }
  split; [exact H |].
  exact (proj1 (proj2 (proj2
           (C1_bulk_raises_ambiguity_map_after_all_values
              (one_then_two 555) "App" "Ticket Number" ["A-1"; "B-2"]
              (fake_state ticket_fields) H)))).
Defined.

Lemma C2_witness :
  let w := fake_world no_value_ids [] [] in
  fst (get_record_id_by_field w "App" "Owner" "X" (fake_state ticket_fields))
  = Raise (field_not_found "App" "Owner") /\
  fst (get_record_id_by_field w "App" "Ticket Number" "X" bad_module_state)
  = Raise (RuntimeError "Invalid application level id: abc").
Proof.
  cbv zeta. split.
  - refine (proj1 (proj1 (C2_configuration_errors_raise_in_single_lookup_only
                            (fake_world no_value_ids [] []) "App" "Owner")
                     "X" (fake_state ticket_fields) _ eq_refl) _).
    intros key val [H | [H | []]]; inversion H; reflexivity.
  - refine (proj1 (proj2 (proj1 (C2_configuration_errors_raise_in_single_lookup_only
                                   (fake_world no_value_ids [] []) "App" "Ticket Number")
                            "X" bad_module_state _ eq_refl) _)
              (ValueError EmptyString) (ValueError EmptyString) eq_refl eq_refl).
    exists "Ticket Number", (PInt 10). split; [left; reflexivity | reflexivity].
Defined.

Lemma C5_witness :
  let w := fallback_world no_value_ids in
  let st := fake_state ticket_fields in
  let st1 := snd (_resolve_field_id_by_display_name w "App" "Ticket Number" st) in
  let st3 := snd (_supports_rest_search w 100 st1) in
  _supports_rest_search w 100 st1 = (Ok false, st3) /\
  fst (_get_grc_endpoint_url w "App" st3) = Ok (PStr "Endpoint") /\
  fst (get_record_id_by_field w "App" "Ticket Number" "XYZ" st) = Ok (Some 222).
Proof.
  cbv zeta.
  set (w := fallback_world no_value_ids).
  set (st := fake_state ticket_fields).
  set (st1 := snd (_resolve_field_id_by_display_name w "App" "Ticket Number" st)).
  set (st3 := snd (_supports_rest_search w 100 st1)).
  pose proof (C5_unsupported_probe_takes_fallback_path w "App" "Ticket Number" "XYZ"
                st st1 st1 st3 (PInt 10) (PStr "XYZ") 100
                eq_refl eq_refl eq_refl eq_refl) as H.
  cbv zeta in H. destruct H as (Hsel & _ & endpoint & st4 & Hep & _ & Hquery & _).
  split; [reflexivity |].
  split.
  - exact (Hsel _ [(KStr "value", PList [PDict [(KStr "name", PStr "App");
                                                 (KStr "url", PStr "Endpoint")]])]
             [PDict [(KStr "name", PStr "App"); (KStr "url", PStr "Endpoint")]]
             eq_refl eq_refl eq_refl eq_refl).
  - assert (He : endpoint = PStr "Endpoint") by (injection Hep as <- _; reflexivity).
    assert (Hs : st4 = record (Http (directory_request w)) st3)
      by (injection Hep as _ <-; reflexivity).
    subst endpoint st4.
    destruct (Hquery eq_refl) as (ids & st5 & Hrun & Hout).
    rewrite Hout.
    injection Hrun as <- _. reflexivity.
Defined.

Lemma C6_witness :
  let w := rejected_world in
  requests w [] (search_request w 100 (PInt 10) (PStr "X") 2)
  = mock_response 500 (PDict []) /\
  fst (_rest_search_record_ids w 100 (PInt 10) (PStr "X") 2 (fake_state ticket_fields))
  = Ok [].
Proof.
  cbv zeta. split; [reflexivity |].
  refine (proj1 (proj2 (proj1 (C6_strategies_swallow_operational_failures
                                 rejected_world (fake_state ticket_fields))
                          100 (PInt 10) (PStr "X") 2))
            _ eq_refl _).
  simpl. lia.
Defined.

Lemma C7_witness :
  let w := fallback_world open_is_999 in
  let st := fake_state status_fields in
  fst (_is_values_list (PInt 20) st) = Ok true /\
  fst (_get_value_or_value_id w "Status" (PInt 20) "Open" st) = Ok (PInt 999) /\
  fst (_get_value_or_value_id w "Status" (PInt 20) "Closed" st)
  = Ok (PStr "__CLINE_VALUES_LIST_NO_MATCH__").
Proof.
  cbv zeta. split; [reflexivity |].
  split.
  - exact (proj1 (proj1 (proj1 (C7_token_for_primary_raw_value_for_fallback
                                  (fallback_world open_is_999))
                           "Status" (PInt 20) "Open" (fake_state status_fields))
                    eq_refl)
             (PInt 999) [] eq_refl).
  - exact (proj2 (proj1 (proj1 (C7_token_for_primary_raw_value_for_fallback
                                  (fallback_world open_is_999))
                           "Status" (PInt 20) "Closed" (fake_state status_fields))
                    eq_refl)
             eq_refl).
Defined.

Lemma C8_witness :
  eq_ignore_case "Ticket Number" "ticket number" = true /\
  (exists before key val after,
     ticket_fields = (before ++ (KStr key, val) :: after)%list /\
     name_matches (fake_world no_value_ids [] []) key "ticket number" = true /\
     (forall k v, In (KStr k, v) before ->
                  name_matches (fake_world no_value_ids [] []) k "ticket number" = false) /\
     fst (_resolve_field_id_by_display_name (fake_world no_value_ids [] [])
            "App" "ticket number" (fake_state ticket_fields))
     = Ok val) /\
  name_matches MoreScenarios.accent_world
    MoreScenarios.etat_capital MoreScenarios.etat_small = true /\
  (exists before key val after,
     MoreScenarios.accent_fields = (before ++ (KStr key, val) :: after)%list /\
     name_matches MoreScenarios.accent_world key MoreScenarios.etat_small = true /\
     (forall k v, In (KStr k, v) before ->
                  name_matches MoreScenarios.accent_world k MoreScenarios.etat_small = false) /\
     fst (_resolve_field_id_by_display_name MoreScenarios.accent_world
            "App" MoreScenarios.etat_small (fake_state MoreScenarios.accent_fields))
     = Ok val).
Proof.
  split; [reflexivity |].
  split.
  - refine (proj1 (C8_field_resolution_ignores_case (fake_world no_value_ids [] [])
                     "App" "ticket number" (fake_state ticket_fields) _ eq_refl) _).
    exists "Ticket Number", (PInt 10). split; [left; reflexivity | reflexivity].
  - split; [reflexivity |].
    refine (proj1 (C8_field_resolution_ignores_case MoreScenarios.accent_world
                     "App" MoreScenarios.etat_small
                     (fake_state MoreScenarios.accent_fields) _ eq_refl) _).
    exists MoreScenarios.etat_capital, (PInt 30). split; [left; reflexivity | reflexivity].
Defined.

Lemma C9_witness :
  let w := MoreScenarios.resolution_fails_for_c3 in
  let st := fake_state status_fields in
  fst (lookups w "App" "Status" ["A-1"; "B-2"; "C-3"] st)
  = [ ("A-1", Ok (Some 555)); ("B-2", Ok None);
      ("C-3", Raise (RuntimeError "values list unavailable")) ] /\
  exists results,
    fst (get_record_ids_by_field_bulk w "App" "Status" ["A-1"; "B-2"; "C-3"] st) = Ok results /\
    count_occ string_dec (map fst results) "C-3" = 1%nat /\
    adict_find String.eqb results "A-1" = Some (Some 555) /\
    adict_find String.eqb results "B-2" = Some None /\
    adict_find String.eqb results "C-3" = Some None.
Proof.
  cbv zeta. split; [reflexivity |].
  destruct (proj2 (C9_bulk_mapping_has_each_value_once
                     MoreScenarios.resolution_fails_for_c3 "App" "Status"
                     ["A-1"; "B-2"; "C-3"] (fake_state status_fields)) eq_refl)
    as (results & Hrun & Honce & _ & Hlast).
  exists results.
  split; [exact Hrun |].
  split; [apply Honce; right; right; left; reflexivity |].
  split; [| split].
  - refine (proj1 (Hlast [] "A-1" (Ok (Some 555))
                     [ ("B-2", Ok None);
                       ("C-3", Raise (RuntimeError "values list unavailable")) ]
                     eq_refl _) 555 eq_refl).
    intros [H | [H | []]]; discriminate H.
  - refine (proj1 (proj2 (Hlast [("A-1", Ok (Some 555))] "B-2" (Ok None)
                            [("C-3", Raise (RuntimeError "values list unavailable"))]
                            eq_refl _)) eq_refl).
    intros [H | []]; discriminate H.
  - refine (proj2 (proj2 (Hlast [("A-1", Ok (Some 555)); ("B-2", Ok None)] "C-3"
                            (Raise (RuntimeError "values list unavailable")) []
                            eq_refl _))
              (RuntimeError "values list unavailable") eq_refl).
    intros [].
Defined.

Lemma C10_witness :
  let w := record_zero_world in
  let st := fake_state ticket_fields in
  log (snd (get_record_id_by_field w "App" "Ticket Number" "ZERO" st))
  = [ FromApplication "App"; Http (probe_request w 100);
      Http (search_request w 100 (PInt 10) (PStr "ZERO") 2) ] /\
  fst (get_record_id_by_field w "App" "Ticket Number" "ZERO" st) = Ok None.
Proof.
  cbv zeta. split; [reflexivity |].
  set (w := record_zero_world).
  set (st := fake_state ticket_fields).
  set (st1 := snd (_resolve_field_id_by_display_name w "App" "Ticket Number" st)).
  set (st3 := snd (_supports_rest_search w 100 st1)).
  refine (proj1 (proj2 (proj2 (proj2 (proj2 (proj2 (proj2
                  C10_id_zero_dropped_by_primary_kept_by_fallback))))))
            w "App" "Ticket Number" "ZERO" st st1 st1 st3 (PInt 10) (PStr "ZERO") 100
            _ eq_refl eq_refl eq_refl eq_refl eq_refl _ eq_refl).
  simpl. lia.
Defined.

End Instances.

(** ** Instances of the further properties *)

Module MoreInstances.
Import Scenarios MoreScenarios.

Lemma X1_witness :
  hashable (PInt 20) = true /\
  exists b : bool,
    fst (_is_values_list (PInt 20) (fake_state status_fields)) = Ok b /\
    (b = true <->
     exists d,
       dict_get_val (application_fields_json (archer (fake_state status_fields))) (PInt 20)
       = Ok (PDict d) /\
       py_int (dict_get d (KStr "Type") (PInt (-1))) = Ok 4).
Proof.
  split; [reflexivity |].
  exact (proj1 (proj2 (X1_is_values_list_answers_without_raising
                         (PInt 20) (fake_state status_fields))) eq_refl).
Defined.

Lemma X2_witness :
  get_record_id_by_field broken_host "App" "Ticket Number" "X" (fake_state ticket_fields)
  = (Raise (RuntimeError "metadata unavailable"),
     {| archer := archer (fake_state ticket_fields); log := [FromApplication "App"] |}).
Proof.
  exact (proj1 (X2_collaborator_failures_propagate_unchanged
                  broken_host "App" "Ticket Number" "X" (fake_state ticket_fields)
                  (RuntimeError "metadata unavailable"))
           (archer (fake_state ticket_fields)) eq_refl).
Defined.

Lemma X3_witness :
  let w := search_rejected_world in
  let st := fake_state ticket_fields in
  (exists rid, fst (get_record_id_by_field w "App" "Ticket Number" "X" st) = Ok rid) \/
  (exists ids,
     fst (_rest_search_record_ids w 100 (PInt 10) (PStr "X") 2
            (snd (_supports_rest_search w 100
                    (snd (_resolve_field_id_by_display_name w "App" "Ticket Number" st)))))
     = Ok ids /\
     (2 <= List.length ids)%nat /\
     fst (get_record_id_by_field w "App" "Ticket Number" "X" st)
     = Raise (AmbiguousMatch
                ("Multiple records found for value '" ++ "X"
                 ++ "' in field '" ++ "Ticket Number" ++ "'")
                (PList (map PInt ids)))).
Proof.
  cbv zeta.
  set (w := search_rejected_world).
  set (st := fake_state ticket_fields).
  set (st1 := snd (_resolve_field_id_by_display_name w "App" "Ticket Number" st)).
  set (st3 := snd (_supports_rest_search w 100 st1)).
  exact (X3_supported_probe_leaves_ambiguity_as_only_failure
           w "App" "Ticket Number" "X" st st1 st1 st3 (PInt 10) (PStr "X") 100
           eq_refl eq_refl eq_refl eq_refl).
Defined.

Lemma X4_witness :
  let w := fake_world open_is_999 [] [] in
  let st := fake_state status_fields in
  fst (_is_values_list (PInt 20) st) = Ok true /\
  log (snd (_get_value_or_value_id w "Status" (PInt 20) "Open" st))
  = [GetValueId "Status" "Open"].
Proof.
  cbv zeta. split; [reflexivity |].
  exact (proj1 (proj2 (X4_values_list_resolution_called_for_values_lists_only
                         (fake_world open_is_999 [] []) "Status" "Open" (PInt 20)
                         (fake_state status_fields))) eq_refl).
Defined.

Lemma X5_witness :
  let w := search_rejected_world in
  let st := fake_state ticket_fields in
  get_record_id_by_field w "App" "Ticket Number" "X" st
  = (Ok None,
     {| archer := archer st;
        log := [ FromApplication "App"; Http (probe_request w 100);
                 Http (search_request w 100 (PInt 10) (PStr "X") 2) ] |}).
Proof.
  cbv zeta.
  set (w := search_rejected_world).
  set (st := fake_state ticket_fields).
  set (st1 := snd (_resolve_field_id_by_display_name w "App" "Ticket Number" st)).
  set (st3 := snd (_supports_rest_search w 100 st1)).
  refine (X5_failed_primary_search_gives_none_without_fallback
            w "App" "Ticket Number" "X" st st1 st1 st3 (PInt 10) (PStr "X") 100
            eq_refl eq_refl eq_refl eq_refl
            (or_intror (ex_intro _ {| status_code := 500; json := Some (PDict []);
                                      text := EmptyString |}
                          (conj eq_refl _)))).
  simpl. lia.
Defined.

Lemma X8_witness :
  In (PInt 7) [nested_id 5; PInt 7] /\
  fst (_rest_search_record_ids stray_item_world 100 (PInt 10) (PStr "X") 2
         (fake_state ticket_fields))
  = Ok [].
Proof.
  split; [right; left; reflexivity |].
  refine (X8_one_non_object_item_voids_the_primary_result
            stray_item_world 100 (PInt 10) (PStr "X") 2 (fake_state ticket_fields)
            _ [nested_id 5; PInt 7] (PInt 7) eq_refl _ eq_refl _ eq_refl).
  - simpl. lia.
  - right; left; reflexivity.
Defined.

Lemma X9_witness :
  rest_ids_of (value_listing [nested_id 1; PStr "x"; nested_id 2])
  = rest_ids_of (value_listing [nested_id 1; nested_id 2]).
Proof.
  exact (proj1 (X9_non_object_items_of_a_value_array_are_skipped
                  [nested_id 1] [nested_id 2] (PStr "x") eq_refl)).
Defined.

Lemma X10_witness :
  truthy (PList []) = false /\
  fst (_rest_search_record_ids empty_body_world 100 (PInt 10) (PStr "X") 2
         (fake_state ticket_fields))
  = Ok [].
Proof.
  split; [reflexivity |].
  refine (proj1 (X10_falsy_body_gives_no_ids empty_body_world (fake_state ticket_fields)
                   {| status_code := 200; json := Some (PList []); text := EmptyString |}
                   (PList []) _ eq_refl eq_refl)
            100 (PInt 10) (PStr "X") 2 eq_refl).
  simpl. lia.
Defined.

Lemma X11_witness :
  first_id_key [(KStr "RECORD_ID", PInt 5)] = first_id_key [(KStr "record_id", PInt 5)].
Proof.
  apply X11_identifier_key_ignores_case.
  constructor; [| constructor].
  split; [reflexivity |].
  exists "RECORD_ID", "record_id". repeat split.
Defined.

Lemma X13_witness :
  fst (get_record_ids_by_field_bulk twice_world "App" "Ticket Number" ["A-1"; "A-1"]
         (fake_state ticket_fields))
  = Ok [("A-1", Some 556)] /\
  map fst [("A-1", Some 556)] = first_occurrences ["A-1"; "A-1"].
Proof.
  split; [reflexivity |].
  exact (X13_bulk_mapping_keeps_input_order twice_world "App" "Ticket Number"
           ["A-1"; "A-1"] (fake_state ticket_fields) [("A-1", Some 556)] eq_refl).
Defined.

Lemma X15_witness :
  plain_id (PStr "abc") = true /\
  module_id_of broken_host (PStr "abc")
  = Raise (RuntimeError "Invalid application level id: abc") /\
  module_id_of broken_host (PStr "100") = Ok 100.
Proof.
  split; [reflexivity |]. split.
  - exact (X15_module_id_accepted_iff_int_accepts broken_host (PStr "abc") eq_refl).
  - exact (X15_module_id_accepted_iff_int_accepts broken_host (PStr "100") eq_refl).
Defined.

Lemma X17_witness :
  exists headers url body timeout,
    probe_request broken_host 100 = POST url headers body timeout /\
    dict_get headers (KStr "Authorization") PNone = PStr "Archer session-id=FAKE".
Proof.
  destruct (X17_post_headers_extend_the_session_headers broken_host 100 (PInt 0) PNone 2)
    as (headers & url & body & body' & timeout & timeout' & Hp & _ & _ & Hk & _).
  exists headers, url, body, timeout.
  split; [exact Hp |].
  rewrite Hk; [reflexivity | discriminate].
Defined.

Lemma X18_witness :
  fst (_get_grc_endpoint_url stray_entry_world "App" (fake_state ticket_fields)) = Ok PNone.
Proof.
  exact (X18_non_object_entry_hides_the_application
           stray_entry_world "App" (fake_state ticket_fields)
           {| status_code := 200;
              json := Some (value_listing
                              [ PStr "junk";
                                PDict [(KStr "name", PStr "App");
                                       (KStr "url", PStr "Endpoint")] ]);
              text := EmptyString |}
           [(KStr "value",
             PList [ PStr "junk";
                     PDict [(KStr "name", PStr "App"); (KStr "url", PStr "Endpoint")] ])]
           [] [PDict [(KStr "name", PStr "App"); (KStr "url", PStr "Endpoint")]]
           (PStr "junk") eq_refl eq_refl eq_refl eq_refl eq_refl eq_refl).
Defined.

Lemma X19_witness :
  rest_ids_of (PList [nested_id 5; nested_id 0]) = Ok [5] /\
  (List.length [5] <= records_in (PList [nested_id 5; nested_id 0]))%nat.
Proof.
  split; [reflexivity |].
  exact (proj1 X19_at_most_one_id_per_record
           (PList [nested_id 5; nested_id 0]) [5] eq_refl).
Defined.

End MoreInstances.
